(** * Skyscrapers board validator: a shallow embedding of [skyscrapers.py]

    The Python module validates a board of the skyscrapers puzzle, given as
    a list of text rows.  Every function of the module is embedded below
    under its own name.  Python exceptions are explicit: a function that can
    raise returns a value of [res], and the statements of a Python body are
    sequenced with [x <- e ;; k].

    Conventions of the embedding
    - a Python [str] is a [list ascii] (code points 0..255), one-character
      strings are [ascii];
    - a Python [int] is a [Z];
    - list indexing, slicing and [pop] follow Python for negative and
      out-of-range indices;
    - [set(row)] is a [gset ascii]. *)

From Stdlib Require Import ZArith Ascii String List Bool Lia Sorted.
From stdpp Require Import base decidable option list gmap strings.
Import ListNotations.

Local Open Scope Z_scope.

(** ** Exceptions and the result monad *)

Inductive exn : Type :=
| IndexError
| ValueError
| TypeError
| OSError.

Inductive res (A : Type) : Type :=
| Ok (a : A)
| Raise (e : exn).

Arguments Ok {A} a.
Arguments Raise {A} e.

Definition bind {A B : Type} (m : res A) (k : A -> res B) : res B :=
  match m with
  | Ok a => k a
  | Raise e => Raise e
  end.

Notation "x <- e ;; k" := (bind e (fun x => k))
  (at level 20, e at level 99, k at level 200, only parsing).
Notation "' p <- e ;; k" := (bind e (fun x => match x with p => k end))
  (at level 20, p pattern, e at level 99, k at level 200, only parsing).

(** A [for] loop whose body may raise: the state is threaded through the
    iterations, the first exception ends the loop. *)
Fixpoint for_each {A S : Type} (xs : list A) (s : S) (body : A -> S -> res S)
  : res S :=
  match xs with
  | [] => Ok s
  | x :: xs' => s' <- body x s ;; for_each xs' s' body
  end.

(** A [for] loop whose body may also [return]: [Return r] leaves the loop
    (and the function) with [r], [Next s] goes on with the next element. *)
Inductive ctl (S R : Type) : Type :=
| Next (s : S)
| Return (r : R).

Arguments Next {S R} s.
Arguments Return {S R} r.

Fixpoint for_loop {A S R : Type} (xs : list A) (s : S)
    (body : A -> S -> res (ctl S R)) : res (ctl S R) :=
  match xs with
  | [] => Ok (Next s)
  | x :: xs' =>
      c <- body x s ;;
      match c with
      | Next s' => for_loop xs' s' body
      | Return r => Ok (Return r)
      end
  end.

(** [list(map(f, xs))] for an [f] that may raise. *)
Fixpoint map_res {A B : Type} (f : A -> res B) (xs : list A) : res (list B) :=
  match xs with
  | [] => Ok []
  | x :: xs' => y <- f x ;; ys <- map_res f xs' ;; Ok (y :: ys)
  end.

(** ** Python primitives *)

Abbreviation str := (list ascii) (only parsing).

Definition len {A : Type} (l : list A) : Z := Z.of_nat (length l).

(** [range(lo, hi)] *)
Definition range (lo hi : Z) : list Z :=
  map (fun k => lo + Z.of_nat k) (seq 0 (Z.to_nat (hi - lo))).

(** A negative index counts from the end. *)
Definition norm_index {A : Type} (l : list A) (i : Z) : Z :=
  if i <? 0 then i + len l else i.

(** [l[i]] *)
Definition getitem {A : Type} (l : list A) (i : Z) : res A :=
  let k := norm_index l i in
  if k <? 0 then Raise IndexError
  else match l !! Z.to_nat k with
       | Some x => Ok x
       | None => Raise IndexError
       end.

(** [l[i] = x]; Python raises where stdpp's insert would do nothing. *)
Definition setitem {A : Type} (l : list A) (i : Z) (x : A) : res (list A) :=
  let k := norm_index l i in
  if (k <? 0) || (len l <=? k) then Raise IndexError
  else Ok (<[Z.to_nat k := x]> l).

(** [l.pop(i)]: the removed item and the list that is left. *)
Definition pop {A : Type} (l : list A) (i : Z) : res (A * list A) :=
  let k := norm_index l i in
  if k <? 0 then Raise IndexError
  else match l !! Z.to_nat k with
       | Some x => Ok (x, delete (Z.to_nat k) l)
       | None => Raise IndexError
       end.

(** A slice bound is clamped into [0, len l]. *)
Definition clamp_index {A : Type} (l : list A) (i : Z) : Z :=
  Z.max 0 (Z.min (norm_index l i) (len l)).

(** [l[lo:hi]]; [None] is an omitted bound. *)
Definition slice {A : Type} (l : list A) (lo hi : option Z) : list A :=
  let start := match lo with Some i => clamp_index l i | None => 0 end in
  let stop := match hi with Some i => clamp_index l i | None => len l end in
  take (Z.to_nat (stop - start)) (drop (Z.to_nat start) l).

(** [int(c)] for a one-character string. *)
Definition int_of_char (c : ascii) : res Z :=
  match Ascii.is_nat c with
  | Some n => Ok (Z.of_nat n)
  | None => Raise ValueError
  end.

(** [s.lstrip(chars)], [s.rstrip(chars)], [s.strip(chars)] *)
Fixpoint lstrip (chars s : str) : str :=
  match s with
  | [] => []
  | c :: s' => if bool_decide (c ∈ chars) then lstrip chars s' else s
  end.

Definition rstrip (chars s : str) : str := reverse (lstrip chars (reverse s)).

Definition strip (chars s : str) : str := rstrip chars (lstrip chars s).

(** The characters [str.isspace] accepts among the code points 0..255;
    [s.strip()] without argument strips these. *)
Definition whitespace : str :=
  map ascii_of_nat [9; 10; 11; 12; 13; 28; 29; 30; 31; 32; 133; 160]%nat.

(** The line feed. *)
Definition newline : ascii := "010"%char.

(** The lines a text file yields when it is iterated: every line ends with
    its line feed, except the last one when the text does not end with a
    line feed.  [cur] is the part of the current line already read. *)
Fixpoint lines_from (cur text : str) : list str :=
  match text with
  | [] => match cur with [] => [] | _ => [cur] end
  | c :: text' =>
      if bool_decide (c = newline) then (cur ++ [c]) :: lines_from [] text'
      else lines_from (cur ++ [c]) text'
  end.

Definition file_lines (text : str) : list str := lines_from [] text.

(** [max(l)] on a list of integers. *)
Definition max_list (l : list Z) : res Z :=
  match l with
  | [] => Raise ValueError
  | x :: l' => Ok (fold_left Z.max l' x)
  end.

(** [x in l] *)
Definition contains {A : Type} `{EqDecision A} (x : A) (l : list A) : bool :=
  bool_decide (x ∈ l).

(** [len(set(l))] *)
Definition len_set (l : str) : Z :=
  Z.of_nat (size (list_to_set l : gset ascii)).

(** String literals for boards written as in the source. *)
Definition s (x : string) : str := list_ascii_of_string x.

(** ** The module [skyscrapers] *)

Module skyscrapers.

(** [check_rows(row_1, num)] *)
Definition check_rows (row_1 : list Z) (num : Z) : res bool :=
  first_num <- getitem row_1 0 ;;
  let temp := [first_num] in
  '(first_num, temp) <-
    for_each (range 1 (len row_1)) (first_num, temp)
      (fun i '(first_num, temp) =>
         x <- getitem row_1 i ;;
         let temp := if x >? first_num then temp ++ [x] else temp in
         let first_num := Z.max x first_num in
         Ok (first_num, temp)) ;;
  if len temp >=? num then Ok true else Ok false.

(** [left_to_right_check(input_line, pivot)] *)
Definition left_to_right_check (input_line : str) (pivot : Z) : res bool :=
  num <- map_res int_of_char (strip (s "*") input_line) ;;
  '(_, num) <- pop num 0 ;;
  let num := slice num None (Some pivot) in
  last_num <- getitem num (-1) ;;
  max_num <- max_list num ;;
  if last_num =? max_num then Ok true else Ok false.

(** [check_not_finished_board(board)]; nothing in it can raise. *)
Fixpoint check_not_finished_board (board : list str) : bool :=
  match board with
  | [] => true
  | row :: board' =>
      if contains "?"%char row then false
      else check_not_finished_board board'
  end.

(** [check_uniqueness_in_rows(board)] *)
Definition check_uniqueness_in_rows (board : list str) : res bool :=
  let board := slice board (Some 1) (Some (-1)) in
  c <- for_loop board tt
         (fun row _ =>
            '(_, row) <- pop row 0 ;;
            '(_, row) <- pop row (-1) ;;
            let row := filter (fun x => x <> "*"%char) row in
            if negb (len row =? len_set row) then Ok (Return false)
            else Ok (Next tt)) ;;
  match c with
  | Return r => Ok r
  | Next _ => Ok true
  end.

(** [check_horizontal_visibility(board)] *)
Definition check_horizontal_visibility (board : list str) : res bool :=
  let board := slice board (Some 1) (Some (-1)) in
  let results : list bool := [] in
  results <-
    for_each board results
      (fun row results =>
         let row_1 := slice row (Some 1) (Some (-1)) in
         let row_1 := filter (fun x => x <> "*"%char) row_1 in
         row_1 <- map_res int_of_char row_1 ;;
         c <- getitem row 0 ;;
         results <-
           (if bool_decide (c <> "*"%char) then
              num <- int_of_char c ;;
              r <- check_rows row_1 num ;;
              Ok (results ++ [r])
            else Ok results) ;;
         c <- getitem row (-1) ;;
         if bool_decide (c <> "*"%char) then
           let row_1 := reverse row_1 in
           num <- int_of_char c ;;
           r <- check_rows row_1 num ;;
           Ok (results ++ [r])
         else Ok results) ;;
  if contains false results then Ok false else Ok true.

(** The list [reversed_board] of [check_columns] holds, while it is built,
    rows of two kinds: a list of cells (the integer [0] it is initialised
    with, or a one-character string) and, once joined, a string. *)
Inductive cell : Type :=
| CInt (n : Z)
| CStr (c : ascii).

Inductive row_obj : Type :=
| RList (cells : list cell)
| RStr (row : str).

(** ["".join(cells)] *)
Definition join (cells : list cell) : res str :=
  map_res (fun x => match x with
                    | CStr c => Ok c
                    | CInt _ => Raise TypeError
                    end) cells.

(** Lines 181 to 187 of [check_columns]: the two nested loops, on the store
    [reversed_board]. *)
Definition transpose_loops (board : list str) : res (list row_obj) :=
  let reversed_board :=
    map (fun i => RList (map (fun j => CInt 0) (range 0 (len board))))
        (range 0 (len board)) in
  for_each (range 0 (len board)) reversed_board
    (fun i reversed_board =>
       reversed_board <-
         for_each (range 0 (len board)) reversed_board
           (fun j reversed_board =>
              row <- getitem board j ;;
              c <- getitem row i ;;
              target <- getitem reversed_board i ;;
              match target with
              | RList cells =>
                  cells <- setitem cells j (CStr c) ;;
                  setitem reversed_board i (RList cells)
              | RStr _ => Raise TypeError
              end) ;;
       target <- getitem reversed_board i ;;
       match target with
       | RList cells =>
           row <- join cells ;;
           setitem reversed_board i (RStr row)
       | RStr row => setitem reversed_board i (RStr row)
       end).

(** The rows handed to the row checks.  When the loops are over every row
    has been joined (see [transpose_loops_joined]); the typed embedding
    reads them back as strings. *)
Definition joined_rows (reversed_board : list row_obj) : res (list str) :=
  map_res (fun r => match r with
                    | RStr row => Ok row
                    | RList _ => Raise TypeError
                    end) reversed_board.

Definition reversed_board (board : list str) : res (list str) :=
  rows <- transpose_loops board ;;
  joined_rows rows.

(** [check_columns(board)] *)
Definition check_columns (board : list str) : res bool :=
  reversed_board <- reversed_board board ;;
  uniqueness <- check_uniqueness_in_rows reversed_board ;;
  visibility <- check_horizontal_visibility reversed_board ;;
  Ok (uniqueness && visibility).

Section Main.

(** [read_input(path)] reads the file at [path]; the file system is not
    part of the embedding, so the function is a parameter here. *)
Variable read_input : string -> res (list str).

(** [check_skyscrapers(input_path)] *)
Definition check_skyscrapers (input_path : string) : res bool :=
  board <- read_input input_path ;;
  columns <- check_columns board ;;
  h_visibility <- check_horizontal_visibility board ;;
  let not_finished := check_not_finished_board board in
  uniqueness <- check_uniqueness_in_rows board ;;
  Ok (columns && h_visibility && not_finished && uniqueness).

End Main.

Section Files.

(** [open(path, "r", encoding="utf-8")]: the text of the file as the text
    layer hands it over, decoded and with line ends translated to the line
    feed, or the exception raised.  The file system is a parameter. *)
Variable open_text : string -> res str.

(** [read_input(path)] *)
Definition read_input (path : string) : res (list str) :=
  let result := [] in
  input_file <- open_text path ;;
  result <- for_each (file_lines input_file) result
              (fun line result => Ok (result ++ [strip whitespace line])) ;;
  Ok result.

End Files.

End skyscrapers.

Import skyscrapers.

(** * Definitions used to state the properties *)

(** ** Boards of the doctests *)

(** The board of [check.txt], as [read_input] returns it. *)
Definition check_txt : list str :=
  map s ["***21**"; "412453*"; "423145*"; "*543215"; "*35214*"; "*41532*";
         "*2*1***"]%string.

(** The first doctest board of [check_not_finished_board]. *)
Definition unfinished_txt : list str :=
  map s ["***21**"; "4?????*"; "4?????*"; "*?????5"; "*?????*"; "*?????*";
         "*2*1***"]%string.

(** ** Visible buildings, as the specification counts them *)

(** The building at position [i] is visible when it is strictly taller than
    every building before it. *)
Definition visible (heights : list Z) (i : nat) : bool :=
  match heights !! i with
  | Some h => forallb (fun x => x <? h) (take i heights)
  | None => false
  end.

Definition visible_count (heights : list Z) : nat :=
  length (List.filter (visible heights) (seq 0 (length heights))).

(** The same count, by one pass that carries the running maximum [m]. *)
Fixpoint count_from (m : Z) (l : list Z) : nat :=
  match l with
  | [] => 0%nat
  | x :: l' => ((if x >? m then 1 else 0) + count_from (Z.max x m) l')%nat
  end.

(** One iteration of the loop of [check_rows], on the height [x]. *)
Definition rows_step (st : Z * list Z) (x : Z) : Z * list Z :=
  let '(first_num, temp) := st in
  (Z.max x first_num, if x >? first_num then temp ++ [x] else temp).

(** [m] is the running maximum of the buildings [p] already seen. *)
Definition running_max (p : list Z) (m : Z) : Prop :=
  forall x, forallb (fun y => y <? x) p = (m <? x).

(** ** Digits and maxima *)

(** The decimal digits, and the value [int] gives them. *)
Definition is_digit (c : ascii) : Prop :=
  (48 <= nat_of_ascii c <= 57)%nat.

Definition digit_value (c : ascii) : Z := Z.of_nat (nat_of_ascii c - 48).

(** [m] is the maximum of [l]. *)
Definition is_maximum (m : Z) (l : list Z) : Prop :=
  In m l /\ Forall (fun y => y <= m) l.

(** ** Interior rows and interior cells *)

(** What is left of a list without its first and its last element. *)
Definition interior {A : Type} (l : list A) : list A :=
  take (length l - 2) (drop 1 l).

(** The heights a row check looks at: the interior cells that are not the
    blank marker. *)
Definition row_heights (row : str) : str :=
  filter (fun x => x <> "*"%char) (interior row).

Definition row_unique (row : str) : bool :=
  len (row_heights row) =? len_set (row_heights row).

(** All rows of a board have [n] cells. *)
Definition rows_of_length (n : nat) (board : list str) : Prop :=
  Forall (fun row => length row = n) board.

(** The board has the unfilled marker in some cell. *)
Definition unfinished (board : list str) : Prop :=
  exists row, row ∈ board /\ "?"%char ∈ row.

(** ** The transposed board *)

(** The cell at row [i], column [j]. *)
Definition cell_at (board : list str) (i j : nat) : option ascii :=
  match board !! i with
  | Some row => row !! j
  | None => None
  end.

(** A board with as many cells in each row as it has rows. *)
Definition square (board : list str) : Prop :=
  rows_of_length (length board) board.

(** The column projection of the specification: row [i] of the result is
    column [i] of the board. *)
Definition column (board : list str) (i : nat) : str :=
  map (fun row => nth i row "*"%char) board.

Definition transpose (board : list str) : list str :=
  map (column board) (seq 0 (length board)).

(** Every row of the board has a cell in column [i]. *)
Definition reaches (i : nat) (board : list str) : Prop :=
  Forall (fun row => (i < length row)%nat) board.

(** Every row has at least as many cells as the board has rows. *)
Definition wide (board : list str) : Prop :=
  Forall (fun row => (length board <= length row)%nat) board.

(** The store [reversed_board] as [check_columns] creates it. *)
Definition zero_cells (board : list str) : list cell :=
  map (fun _ : Z => CInt 0) (range 0 (len board)).

Definition zero_rows (board : list str) : list row_obj :=
  map (fun _ : Z => RList (zero_cells board)) (range 0 (len board)).

(** The store after [j] iterations of the inner loop on row [i], entered
    with the store [rows]. *)
Definition filled_upto (board : list str) (i : nat) (rows : list row_obj)
    (j : nat) : list row_obj :=
  <[i := RList (map CStr (take j (column board i))
                ++ drop j (zero_cells board))]> rows.

(** The store after [i] iterations of the outer loop. *)
Definition joined_upto (board : list str) (i : nat) : list row_obj :=
  map RStr (take i (transpose board)) ++ drop i (zero_rows board).

(** Both checks are run, then their answers are combined. *)
Definition both (a b : res bool) : res bool :=
  x <- a ;; y <- b ;; Ok (x && y).

(** ** Hints and heights of a row *)

(** The heights of a row, as integers. *)
Definition row_numbers (row : str) : list Z :=
  map digit_value (row_heights row).

(** What a hint cell adds to [results]: nothing for the blank marker, else
    the answer of [check_rows] on the heights seen from that cell. *)
Definition hint_answer (hint : ascii) (heights : list Z) : list bool :=
  if bool_decide (hint <> "*"%char)
  then [digit_value hint <=? Z.of_nat (visible_count heights)]
  else [].

(** A hint cell is satisfied: it is blank, or it asks for no more buildings
    than are visible. *)
Definition hint_satisfied (hint : ascii) (heights : list Z) : bool :=
  bool_decide (hint = "*"%char)
  || (digit_value hint <=? Z.of_nat (visible_count heights)).

(** Both hints of a row are satisfied, the left one by the heights read
    from the left, the right one by the heights read from the right. *)
Definition row_visible (row : str) : bool :=
  match head row, last row with
  | Some left_hint, Some right_hint =>
      hint_satisfied left_hint (row_numbers row)
      && hint_satisfied right_hint (reverse (row_numbers row))
  | _, _ => true
  end.

(** A hint cell the row check can use: the blank marker, or a digit next
    to at least one height. *)
Definition hint_usable (hint : ascii) (heights : list Z) : Prop :=
  hint = "*"%char \/ (is_digit hint /\ heights <> []).

(** The rows the visibility check can read: the interior cells are digits
    or blank markers, and the two edge cells are usable hints. *)
Definition row_readable (row : str) : Prop :=
  Forall is_digit (row_heights row) /\
  exists left_hint right_hint,
    head row = Some left_hint /\ last row = Some right_hint /\
    hint_usable left_hint (row_numbers row) /\
    hint_usable right_hint (row_numbers row).

(** What a row adds to [results]. *)
Definition hint_answers (row : str) : list bool :=
  match head row, last row with
  | Some left_hint, Some right_hint =>
      hint_answer left_hint (row_numbers row)
      ++ hint_answer right_hint (reverse (row_numbers row))
  | _, _ => []
  end.

(** ** Text files *)

(** The carriage return, which the text layer reads as a line end. *)
Definition carriage_return : ascii := "013"%char.

(** A row [read_input] can give back unchanged: it holds neither line feed
    nor carriage return and neither starts nor ends with a whitespace
    character. *)
Definition clean_row (row : str) : Prop :=
  (newline ∉ row) /\
  (carriage_return ∉ row) /\
  (forall c, head row = Some c -> c ∉ whitespace) /\
  (forall c, last row = Some c -> c ∉ whitespace).

(** The text made of the rows, each followed by a line feed. *)
Definition unlines (rows : list str) : str :=
  concat (map (fun row => row ++ [newline]) rows).

(** The last line of a text that does not end with a line feed. *)
Definition last_line (tail : str) : list str :=
  match tail with
  | [] => []
  | _ => [tail]
  end.

(** * Properties *)

(** ** The doctests of the source *)

Example doctest_left_to_right_check :
  left_to_right_check (s "412453*") 4 = Ok true /\
  left_to_right_check (s "452453*") 5 = Ok false.
Proof. split; reflexivity. Qed.

Example doctest_check_not_finished_board :
  check_not_finished_board unfinished_txt = false /\
  check_not_finished_board check_txt = true /\
  check_not_finished_board
    (map s ["***21**"; "412453*"; "423145*"; "*5?3215"; "*35214*";
            "*41532*"; "*2*1***"]%string) = false.
Proof. repeat split; reflexivity. Qed.

Example doctest_check_uniqueness_in_rows :
  check_uniqueness_in_rows check_txt = Ok true /\
  check_uniqueness_in_rows
    (map s ["***21**"; "452453*"; "423145*"; "*543215"; "*35214*";
            "*41532*"; "*2*1***"]%string) = Ok false /\
  check_uniqueness_in_rows
    (map s ["***21**"; "412453*"; "423145*"; "*553215"; "*35214*";
            "*41532*"; "*2*1***"]%string) = Ok false.
Proof. repeat split; reflexivity. Qed.

Example doctest_check_horizontal_visibility :
  check_horizontal_visibility check_txt = Ok true /\
  check_horizontal_visibility
    (map s ["***21**"; "452453*"; "423145*"; "*543215"; "*35214*";
            "*41532*"; "*2*1***"]%string) = Ok false /\
  check_horizontal_visibility
    (map s ["***21**"; "452413*"; "423145*"; "*543215"; "*35214*";
            "*41532*"; "*2*1***"]%string) = Ok false.
Proof. repeat split; reflexivity. Qed.

Example doctest_check_columns :
  check_columns check_txt = Ok true /\
  check_columns
    (map s ["***21**"; "412453*"; "423145*"; "*543215"; "*35214*";
            "*41232*"; "*2*1***"]%string) = Ok false /\
  check_columns
    (map s ["***21**"; "412553*"; "423145*"; "*543215"; "*35214*";
            "*41532*"; "*2*1***"]%string) = Ok false.
Proof. repeat split; reflexivity. Qed.

Example doctest_check_skyscrapers :
  check_skyscrapers (fun _ => Ok check_txt) "check.txt" = Ok true.
Proof. reflexivity. Qed.

(** ** Facts on the primitives *)

Lemma getitem_nat {A : Type} (l : list A) (i : nat) :
  getitem l (Z.of_nat i) =
  match l !! i with Some x => Ok x | None => Raise IndexError end.
Proof.
  assert (Hi : (Z.of_nat i <? 0) = false) by (apply Z.ltb_ge; lia).
  unfold getitem, norm_index. rewrite Hi. cbv iota.
  now rewrite Hi, Nat2Z.id.
Qed.

Lemma getitem_app_len {A : Type} (p t : list A) (x : A) :
  getitem (p ++ x :: t) (len p) = Ok x.
Proof.
  unfold len. rewrite getitem_nat, lookup_app_r by lia.
  now rewrite Nat.sub_diag.
Qed.

Lemma range_nil lo : range lo lo = [].
Proof. unfold range. now rewrite Z.sub_diag. Qed.

Lemma range_cons lo hi : lo < hi -> range lo hi = lo :: range (lo + 1) hi.
Proof.
  intros Hlt. unfold range.
  replace (Z.to_nat (hi - lo)) with (S (Z.to_nat (hi - (lo + 1)))) by lia.
  cbn [seq map]. rewrite <- seq_shift, map_map. f_equal; [lia|].
  apply map_ext. intros k. lia.
Qed.

Lemma length_range lo hi : length (range lo hi) = Z.to_nat (hi - lo).
Proof. unfold range. now rewrite length_map, length_seq. Qed.

Lemma len_app {A : Type} (p t : list A) : len (p ++ t) = len p + len t.
Proof. unfold len. rewrite length_app. lia. Qed.

Lemma len_cons {A : Type} (x : A) (t : list A) : len (x :: t) = 1 + len t.
Proof. unfold len. cbn [length]. lia. Qed.

Lemma len_nonneg {A : Type} (l : list A) : 0 <= len l.
Proof. unfold len. lia. Qed.

(** ** [check_rows] counts the visible buildings *)

Section CheckRows.

(** The loop over the indices is a fold over the heights it reads. *)
Lemma rows_loop_fold (t p : list Z) (st : Z * list Z) :
  for_each (range (len p) (len (p ++ t))) st
    (fun i '(first_num, temp) =>
       x <- getitem (p ++ t) i ;;
       let temp := if x >? first_num then temp ++ [x] else temp in
       let first_num := Z.max x first_num in
       Ok (first_num, temp))
  = Ok (fold_left rows_step t st).
Proof.
  revert p st. induction t as [|x t IH]; intros p st.
  - rewrite app_nil_r, range_nil. reflexivity.
  - rewrite range_cons
      by (rewrite len_app, len_cons; pose proof (len_nonneg t); lia).
    cbn [for_each]. destruct st as [first_num temp].
    rewrite getitem_app_len. cbn [bind].
    specialize (IH (p ++ [x])). rewrite <- app_assoc in IH. cbn [app] in IH.
    replace (len (p ++ [x])) with (len p + 1) in IH
      by (rewrite len_app, len_cons; unfold len; simpl; lia).
    rewrite IH. reflexivity.
Qed.

Lemma rows_fold_length (t : list Z) (first_num : Z) (temp : list Z) :
  length (snd (fold_left rows_step t (first_num, temp)))
  = (length temp + count_from first_num t)%nat.
Proof.
  revert first_num temp. induction t as [|x t IH]; intros first_num temp.
  - simpl. lia.
  - cbn [fold_left rows_step count_from]. rewrite IH.
    destruct (x >? first_num); [rewrite length_app; simpl|]; lia.
Qed.

(** What [check_rows] computes on a non-empty row. *)
Lemma check_rows_count (h : Z) (t : list Z) (num : Z) :
  check_rows (h :: t) num = Ok (Z.of_nat (S (count_from h t)) >=? num).
Proof.
  unfold check_rows. change (getitem (h :: t) 0) with (Ok (A:=Z) h). cbn [bind].
  pose proof (rows_loop_fold t [h] (h, [h])) as Hloop.
  change (len [h]) with 1 in Hloop. cbn [app] in Hloop.
  rewrite Hloop. cbn [bind].
  pose proof (rows_fold_length t h [h]) as Hlen.
  destruct (fold_left rows_step t (h, [h])) as [first_num temp].
  cbn [snd length] in Hlen. unfold len. rewrite Hlen.
  change (1 + count_from h t)%nat with (S (count_from h t)).
  now destruct (Z.of_nat (S (count_from h t)) >=? num).
Qed.

Lemma running_max_snoc (p : list Z) (m x : Z) :
  running_max p m -> running_max (p ++ [x]) (Z.max x m).
Proof.
  intros Hp y. rewrite forallb_app, Hp. cbn [forallb]. rewrite andb_true_r.
  destruct (Z.ltb_spec m y), (Z.ltb_spec x y), (Z.ltb_spec (Z.max x m) y);
    simpl; try reflexivity; lia.
Qed.

Lemma visible_after (t p : list Z) (m : Z) :
  running_max p m ->
  length (List.filter (visible (p ++ t)) (seq (length p) (length t)))
  = count_from m t.
Proof.
  revert p m. induction t as [|x t IH]; intros p m Hp; [reflexivity|].
  cbn [length seq List.filter count_from].
  assert (Hvis : visible (p ++ x :: t) (length p) = (x >? m)).
  { unfold visible. rewrite lookup_app_r, Nat.sub_diag by lia.
    cbn [lookup list_lookup].
    rewrite take_app_length, Hp. rewrite Z.gtb_ltb. reflexivity. }
  rewrite Hvis.
  specialize (IH (p ++ [x]) (Z.max x m) (running_max_snoc p m x Hp)).
  rewrite <- app_assoc in IH. cbn [app] in IH.
  rewrite length_app in IH. cbn [length] in IH.
  replace (length p + 1)%nat with (S (length p)) in IH by lia.
  destruct (x >? m); cbn [length]; rewrite IH; reflexivity.
Qed.

Lemma visible_count_cons (h : Z) (t : list Z) :
  visible_count (h :: t) = S (count_from h t).
Proof.
  unfold visible_count. cbn [length seq List.filter].
  change (visible (h :: t) 0) with true. cbn [length]. f_equal.
  apply (visible_after t [h] h).
  intros x. cbn [forallb]. now rewrite andb_true_r.
Qed.

End CheckRows.

(** C2: on a non-empty row [check_rows] returns, and it returns [True]
    exactly when the number of visible buildings (the new running maxima) is
    greater than or equal to the hint [num]. *)
Theorem check_rows_at_least (row_1 : list Z) (num : Z) :
  row_1 <> [] ->
  exists r, check_rows row_1 num = Ok r /\
    (r = true <-> Z.of_nat (visible_count row_1) >= num).
Proof.
  intros Hne. destruct row_1 as [|h t]; [congruence|].
  rewrite check_rows_count, visible_count_cons.
  eexists; split; [reflexivity|].
  rewrite Z.geb_le. lia.
Qed.

Lemma check_rows_at_least_witness :
  [2; 1; 3] <> [] /\
    exists r, check_rows [2; 1; 3] 2 = Ok r /\
    (r = true <-> Z.of_nat (visible_count [2; 1; 3]) >= 2).
Proof.
  split; [discriminate|]. apply (check_rows_at_least [2; 1; 3] 2). discriminate.
Defined.

(** C5: with [V] visible buildings in a non-empty row, [check_rows] returns
    [True] for every hint up to [V] and [False] for every hint above [V]. *)
Theorem check_rows_monotone (row_1 : list Z) (num : Z) :
  row_1 <> [] ->
  (num <= Z.of_nat (visible_count row_1) -> check_rows row_1 num = Ok true) /\
    (num > Z.of_nat (visible_count row_1) -> check_rows row_1 num = Ok false).
Proof.
  intros Hne. destruct row_1 as [|h t]; [congruence|].
  rewrite check_rows_count, visible_count_cons.
  split; intros Hnum; f_equal.
  - apply Z.geb_le. lia.
  - destruct (Z.geb_spec (Z.of_nat (S (count_from h t))) num);
      [lia|reflexivity].
Qed.

Lemma check_rows_monotone_witness :
  check_rows [2; 1; 3] 2 = Ok true /\ check_rows [2; 1; 3] 3 = Ok false.
Proof.
  assert (Hne : [2; 1; 3] <> []) by discriminate.
  split.
  - apply (check_rows_monotone [2; 1; 3] 2 Hne). vm_compute. discriminate.
  - apply (check_rows_monotone [2; 1; 3] 3 Hne). vm_compute. reflexivity.
Defined.

(** ** [left_to_right_check] *)

Section LeftToRight.

Lemma int_of_char_digit (c : ascii) :
  is_digit c -> int_of_char c = Ok (digit_value c).
Proof.
  unfold is_digit.
  destruct c as [[] [] [] [] [] [] [] []]; vm_compute; intros [H1 H2];
    try reflexivity; exfalso; revert H1 H2; clear; intros H1 H2;
    repeat match goal with
           | H : le _ _ |- _ => apply le_S_n in H
           | H : le (S _) O |- _ => inversion H
           end.
Qed.

Lemma map_int_digits (l : str) :
  Forall is_digit l -> map_res int_of_char l = Ok (map digit_value l).
Proof.
  induction 1 as [|c l Hc _ IH]; [reflexivity|].
  cbn [map_res map]. now rewrite (int_of_char_digit c Hc), IH.
Qed.

Lemma pop_head {A : Type} (x : A) (l : list A) : pop (x :: l) 0 = Ok (x, l).
Proof. reflexivity. Qed.

(** [l[:k]] for a bound that is not negative. *)
Lemma slice_prefix {A : Type} (l : list A) (k : Z) :
  0 <= k -> slice l None (Some k) = take (Z.to_nat k) l.
Proof.
  intros Hk. unfold slice, clamp_index, norm_index.
  destruct (Z.ltb_spec k 0) as [Hneg|_]; [lia|].
  rewrite Z.sub_0_r. change (Z.to_nat 0) with 0%nat. rewrite drop_0.
  destruct (Z.le_ge_cases k (len l)) as [Hle|Hge].
  - now rewrite Z.min_l, Z.max_r by lia.
  - rewrite Z.min_r, Z.max_r by (pose proof (len_nonneg l); lia).
    unfold len in *. rewrite Nat2Z.id, !take_ge by lia. reflexivity.
Qed.

(** [l[-1]] is the last element. *)
Lemma getitem_last {A : Type} (l : list A) (x : A) :
  getitem (l ++ [x]) (-1) = Ok x.
Proof.
  unfold getitem, norm_index. change (-1 <? 0) with true. cbv iota.
  rewrite len_app. change (len [x]) with 1.
  replace (-1 + (len l + 1)) with (len l) by lia.
  pose proof (len_nonneg l) as Hl.
  destruct (Z.ltb_spec (len l) 0) as [Hneg|_]; [lia|].
  unfold len. rewrite Nat2Z.id, lookup_app_r, Nat.sub_diag by lia.
  reflexivity.
Qed.

Lemma fold_max_spec (l : list Z) (x : Z) :
  is_maximum (fold_left Z.max l x) (x :: l).
Proof.
  revert x. induction l as [|y l IH]; intros x.
  - split; [now left|]. repeat constructor. cbn [fold_left]. lia.
  - cbn [fold_left]. destruct (IH (Z.max x y)) as [Hin Hall].
    apply Forall_cons in Hall as [Hxy Hall]. split.
    + destruct Hin as [Heq|Hin]; [|now right; right].
      rewrite <- Heq. destruct (Z.max_spec x y) as [[_ ->]|[_ ->]];
        [right; now left|now left].
    + repeat constructor; [lia|lia|exact Hall].
Qed.

Lemma max_list_spec (l : list Z) :
  l <> [] -> exists m, max_list l = Ok m /\ is_maximum m l.
Proof.
  destruct l as [|x l]; [congruence|]. intros _.
  exists (fold_left Z.max l x). split; [reflexivity|apply fold_max_spec].
Qed.

Lemma is_maximum_unique (l : list Z) (a b : Z) :
  is_maximum a l -> is_maximum b l -> a = b.
Proof.
  intros [Ha Hla] [Hb Hlb]. rewrite Forall_forall in Hla, Hlb.
  apply list_elem_of_In in Ha, Hb.
  specialize (Hla _ Hb). specialize (Hlb _ Ha). lia.
Qed.

End LeftToRight.

(** C9: when the line without its leading and trailing blanks is a digit
    sequence of more than [pivot] entries and [pivot >= 1],
    [left_to_right_check] returns, and it returns [True] exactly when, once
    the first digit is dropped, the [pivot]-th height left is the maximum of
    the first [pivot] heights left.  This is not the rule of [check_rows]:
    on ["2213*"] with pivot 2 the answer is [False], while [check_rows] on
    [2; 1; 3] with hint 2 answers [True]. *)
Theorem left_to_right_check_last_is_max (input_line : str) (pivot : Z) :
  let digits := strip (s "*") input_line in
  let heights := map digit_value (drop 1 digits) in
  Forall is_digit digits ->
  len digits > pivot ->
  pivot >= 1 ->
  (exists r, left_to_right_check input_line pivot = Ok r /\
     (r = true <->
      exists h, heights !! Z.to_nat (pivot - 1) = Some h /\
                is_maximum h (take (Z.to_nat pivot) heights))) /\
  left_to_right_check (s "2213*") 2 = Ok false /\
  check_rows [2; 1; 3] 2 = Ok true.
Proof.
  intros digits heights Hdigits Hlen Hpivot.
  split; [|split; reflexivity].
  unfold left_to_right_check. fold digits.
  rewrite (map_int_digits digits Hdigits).
  destruct digits as [|c rest] eqn:Hd;
    [unfold len in Hlen; simpl in Hlen; lia|].
  cbn [map bind]. rewrite pop_head. cbn [bind].
  subst heights. change (drop 1 (c :: rest)) with (drop 0 rest).
  rewrite drop_0. set (heights := map digit_value rest).
  rewrite slice_prefix by lia.
  assert (Hlh : length heights = length rest)
    by (unfold heights; apply length_map).
  rewrite len_cons in Hlen. unfold len in Hlen.
  assert (Hlast : is_Some (heights !! Z.to_nat (pivot - 1)))
    by (apply lookup_lt_is_Some; lia).
  destruct Hlast as [h Hh].
  assert (Hsplit : take (Z.to_nat pivot) heights
                   = take (Z.to_nat (pivot - 1)) heights ++ [h]).
  { replace (Z.to_nat pivot) with (S (Z.to_nat (pivot - 1))) by lia.
    now apply take_S_r. }
  rewrite Hsplit, getitem_last. cbn [bind].
  destruct (max_list_spec (take (Z.to_nat (pivot - 1)) heights ++ [h]))
    as (m & -> & Hm); [now destruct (take (Z.to_nat (pivot - 1)) heights)|].
  cbn [bind]. destruct (Z.eqb_spec h m) as [->|Hne].
  - eexists; split; [reflexivity|]. split; [|reflexivity].
    intros _. exists m. now split.
  - eexists; split; [reflexivity|]. split; [discriminate|].
    intros (h' & Hh' & Hmax). exfalso. apply Hne.
    assert (h' = h) as -> by congruence.
    now apply (is_maximum_unique _ _ _ Hmax Hm).
Qed.

Lemma left_to_right_check_last_is_max_witness :
  (exists r, left_to_right_check (s "412453*") 4 = Ok r /\
     (r = true <->
      exists h, map digit_value (drop 1 (strip (s "*") (s "412453*")))
                  !! Z.to_nat (4 - 1) = Some h /\
                is_maximum h
                  (take (Z.to_nat 4)
                     (map digit_value (drop 1 (strip (s "*") (s "412453*"))))))) /\
  left_to_right_check (s "2213*") 2 = Ok false /\
  check_rows [2; 1; 3] 2 = Ok true.
Proof.
  apply (left_to_right_check_last_is_max (s "412453*") 4).
  - vm_compute. repeat constructor.
  - vm_compute. reflexivity.
  - vm_compute. discriminate.
Defined.

(** ** Interior rows and interior cells *)

Section Interior.

Context {A : Type}.
Implicit Types l : list A.

(** [l[1:-1]] *)
Lemma slice_interior l : slice l (Some 1) (Some (-1)) = interior l.
Proof.
  destruct l as [|a [|b l]]; [reflexivity|reflexivity|].
  unfold slice, interior, clamp_index, norm_index.
  change (1 <? 0) with false. change (-1 <? 0) with true. cbv iota.
  rewrite !len_cons. pose proof (len_nonneg l) as Hl.
  rewrite (Z.min_l 1), (Z.max_r 0 1), Z.min_l, Z.max_r by lia.
  f_equal. cbn [length]. unfold len. lia.
Qed.

Lemma interior_short l : (length l < 3)%nat -> interior l = [].
Proof.
  intros Hl. unfold interior.
  destruct l as [|a [|b [|c l]]]; [reflexivity..|simpl in Hl; lia].
Qed.

Lemma interior_cons_snoc (a b : A) l : interior (a :: l ++ [b]) = l.
Proof.
  unfold interior. cbn [length drop]. rewrite drop_0, length_app.
  cbn [length]. replace (S (length l + 1) - 2)%nat with (length l) by lia.
  apply take_app_length.
Qed.

Lemma interior_shape l :
  (2 <= length l)%nat -> exists a b, l = a :: interior l ++ [b].
Proof.
  intros Hl. destruct l as [|a l]; [simpl in Hl; lia|].
  destruct l as [|b l _] using rev_ind; [simpl in Hl; lia|].
  exists a, b. now rewrite interior_cons_snoc.
Qed.

Lemma lookup_interior l (i : nat) :
  (i + 2 < length l)%nat -> interior l !! i = l !! S i.
Proof.
  intros Hi. unfold interior.
  rewrite lookup_take_lt by lia. now rewrite lookup_drop.
Qed.

Lemma Forall_interior (P : A -> Prop) l : Forall P l -> Forall P (interior l).
Proof. intros Hl. unfold interior. now apply Forall_take, Forall_drop. Qed.

(** Two lists of one length that agree off their first and last
    positions have the same interior. *)
Lemma interior_ext l1 l2 :
  length l1 = length l2 ->
  (forall i : nat, (0 < i)%nat -> (i + 1 < length l1)%nat ->
                   l1 !! i = l2 !! i) ->
  interior l1 = interior l2.
Proof.
  intros Hlen Hsame. unfold interior. rewrite <- Hlen.
  apply list_eq. intros i.
  destruct (Nat.lt_ge_cases i (length l1 - 2)) as [Hi|Hi].
  - rewrite !lookup_take_lt, !lookup_drop by lia. apply Hsame; lia.
  - now rewrite !lookup_take_ge by lia.
Qed.

Lemma pop_last l (x : A) : pop (l ++ [x]) (-1) = Ok (x, l).
Proof.
  unfold pop, norm_index. change (-1 <? 0) with true. cbv iota.
  rewrite len_app. change (len [x]) with 1.
  replace (-1 + (len l + 1)) with (len l) by lia.
  pose proof (len_nonneg l) as Hl.
  destruct (Z.ltb_spec (len l) 0) as [Hneg|_]; [lia|].
  unfold len. rewrite Nat2Z.id, lookup_app_r, Nat.sub_diag by lia.
  cbn [lookup list_lookup]. do 2 f_equal.
  rewrite delete_middle. apply app_nil_r.
Qed.

End Interior.

(** ** [check_uniqueness_in_rows] *)

Section Uniqueness.

Implicit Types (row : str) (board rows : list str).

Lemma size_list_to_set_le (l : str) :
  (size (list_to_set l : gset ascii) <= length l)%nat.
Proof.
  induction l as [|x l IH]; [now rewrite list_to_set_nil, size_empty|].
  rewrite list_to_set_cons, size_union_alt, size_singleton. cbn [length].
  assert (size (list_to_set l ∖ {[x]} : gset ascii)
          <= size (list_to_set l : gset ascii))%nat
    by (apply subseteq_size, subseteq_difference_l; reflexivity).
  lia.
Qed.

(** [len(row) == len(set(row))] says that no element repeats. *)
Lemma size_list_to_set_NoDup (l : str) :
  size (list_to_set l : gset ascii) = length l <-> NoDup l.
Proof.
  split; [|apply size_list_to_set].
  induction l as [|x l IH]; intros Hsize; [constructor|].
  rewrite list_to_set_cons in Hsize. cbn [length] in Hsize.
  pose proof (size_list_to_set_le l) as Hle.
  destruct (decide (x ∈ l)) as [Hin|Hnotin].
  - exfalso.
    assert (Heq : ({[x]} ∪ list_to_set l : gset ascii) = list_to_set l)
      by now apply subseteq_union_1_L, singleton_subseteq_l,
                   elem_of_list_to_set.
    rewrite Heq in Hsize. lia.
  - rewrite size_union, size_singleton in Hsize
      by now apply disjoint_singleton_l; rewrite elem_of_list_to_set.
    apply NoDup_cons. split; [exact Hnotin|]. apply IH. lia.
Qed.

Lemma row_unique_NoDup row :
  row_unique row = true <-> NoDup (row_heights row).
Proof.
  unfold row_unique, len_set, len.
  rewrite Z.eqb_eq, <- size_list_to_set_NoDup. lia.
Qed.

(** One iteration of the loop, on a row of at least two cells. *)
Lemma uniqueness_body (a b : ascii) (r : str) :
  ('(_, row) <- pop (a :: r ++ [b]) 0 ;;
   '(_, row) <- pop row (-1) ;;
   let row := filter (fun x => x <> "*"%char) row in
   if negb (len row =? len_set row) then Ok (Return false)
   else Ok (Next tt))
  = Ok (if row_unique (a :: r ++ [b]) then Next tt else Return false).
Proof.
  rewrite pop_head. cbn [bind]. rewrite pop_last. cbn [bind].
  unfold row_unique, row_heights. rewrite interior_cons_snoc.
  now destruct (_ =? _).
Qed.

(** A row of fewer than two cells makes the second [pop], or already the
    first, raise. *)
Lemma uniqueness_body_short row :
  (length row < 2)%nat ->
  ('(_, row) <- pop row 0 ;;
   '(_, row) <- pop row (-1) ;;
   let row := filter (fun x => x <> "*"%char) row in
   if negb (len row =? len_set row) then Ok (Return false)
   else Ok (Next (S:=unit) tt))
  = Raise IndexError.
Proof.
  intros Hlen. destruct row as [|a [|b row]]; [reflexivity|reflexivity|].
  simpl in Hlen. lia.
Qed.

Lemma uniqueness_loop rows :
  Forall (fun row => (2 <= length row)%nat) rows ->
  for_loop rows tt
    (fun row _ =>
       '(_, row) <- pop row 0 ;;
       '(_, row) <- pop row (-1) ;;
       let row := filter (fun x => x <> "*"%char) row in
       if negb (len row =? len_set row) then Ok (Return false)
       else Ok (Next tt))
  = Ok (if forallb row_unique rows then Next tt else Return false).
Proof.
  induction 1 as [|row rows Hrow _ IH]; [reflexivity|].
  destruct (interior_shape row Hrow) as (a & b & Hshape).
  generalize dependent (interior row). intros r ->.
  cbn [for_loop forallb]. rewrite uniqueness_body. cbn [bind].
  destruct (row_unique (a :: r ++ [b])); [exact IH|reflexivity].
Qed.

(** On a board whose interior rows have at least two cells the check
    returns, and says whether every interior row is free of repeats. *)
Lemma check_uniqueness_in_rows_forallb board :
  Forall (fun row => (2 <= length row)%nat) (interior board) ->
  check_uniqueness_in_rows board = Ok (forallb row_unique (interior board)).
Proof.
  intros Hrows. pose proof (uniqueness_loop _ Hrows) as Hloop.
  unfold check_uniqueness_in_rows. rewrite slice_interior.
  cbv zeta in Hloop |- *. rewrite Hloop. cbn [bind].
  now destruct (forallb row_unique (interior board)).
Qed.

(** A height at two interior positions of a row is a repeat. *)
Lemma repeated_height_not_unique row (i j : nat) (c : ascii) :
  (0 < i)%nat -> (i < j)%nat -> (j + 1 < length row)%nat ->
  row !! i = Some c -> row !! j = Some c -> c <> "*"%char ->
  row_unique row = false.
Proof.
  intros Hi Hij Hj Hci Hcj Hc.
  apply not_true_is_false. rewrite row_unique_NoDup. unfold row_heights.
  destruct i as [|i]; [lia|]. destruct j as [|j]; [lia|].
  rewrite <- lookup_interior in Hci, Hcj by lia.
  rewrite <- (take_drop_middle _ _ _ Hci).
  rewrite filter_app, filter_cons_True by exact Hc.
  intros Hnodup. apply NoDup_app in Hnodup as (_ & _ & Hnodup).
  apply NoDup_cons in Hnodup as [Hnotin _]. apply Hnotin.
  apply list_elem_of_filter. split; [exact Hc|].
  apply list_elem_of_lookup. exists (j - S i)%nat.
  rewrite lookup_drop. rewrite <- Hcj. f_equal. lia.
Qed.

End Uniqueness.

(** A board of exactly three rows has one interior row, and that row,
    when it has at least two cells, decides the answer. *)
Lemma check_uniqueness_three_rows (top row bottom : str) :
  (2 <= length row)%nat ->
  check_uniqueness_in_rows [top; row; bottom] = Ok (row_unique row).
Proof.
  intros Hrow. rewrite check_uniqueness_in_rows_forallb.
  - change (interior [top; row; bottom]) with [row]. cbn [forallb].
    apply f_equal, andb_true_r.
  - change (interior [top; row; bottom]) with [row]. now repeat constructor.
Qed.

(** With no row left once the first and the last row are set aside, the
    check has nothing to look at. *)
Lemma check_uniqueness_no_interior_rows (board : list str) :
  (length board < 3)%nat -> check_uniqueness_in_rows board = Ok true.
Proof.
  intros Hlen. rewrite check_uniqueness_in_rows_forallb;
    rewrite (interior_short board Hlen); [reflexivity|constructor].
Qed.

(** A row of three cells has one interior cell, which cannot repeat. *)
Lemma row_unique_three_cells (row : str) :
  length row = 3%nat -> row_unique row = true.
Proof.
  intros Hlen. destruct row as [|a [|b [|c [|d row]]]]; try discriminate.
  apply row_unique_NoDup. unfold row_heights.
  change (interior [a; b; c]) with [b]. rewrite filter_cons.
  destruct (decide (b <> "*"%char)); [apply NoDup_singleton|constructor].
Qed.

(** C4: on a board with fewer than four rows, so that fewer than two rows
    remain once the first and the last row are set aside,
    [check_uniqueness_in_rows] returns [True].  A board has as many cells in
    each row as it has rows: with three rows the one interior row has a
    single interior cell, with fewer rows no row is left. *)
Theorem check_uniqueness_fewer_than_four_rows (board : list str) :
  square board -> (length board < 4)%nat ->
  check_uniqueness_in_rows board = Ok true.
Proof.
  intros Hsq Hlen.
  destruct (decide (length board < 3)%nat) as [Hshort|Hthree].
  - now apply check_uniqueness_no_interior_rows.
  - destruct board as [|top [|row [|bottom [|extra board]]]];
      try (simpl in Hlen, Hthree; lia).
    assert (Hrow : length row = 3%nat)
      by exact (Forall_lookup_1 _ _ 1%nat row Hsq eq_refl).
    rewrite check_uniqueness_three_rows by lia.
    now rewrite (row_unique_three_cells row Hrow).
Qed.

Lemma check_uniqueness_fewer_than_four_rows_witness :
  check_uniqueness_in_rows (map s ["***"; "212"; "***"]%string) = Ok true.
Proof.
  apply (check_uniqueness_fewer_than_four_rows
           (map s ["***"; "212"; "***"]%string)).
  - repeat constructor.
  - simpl. lia.
Defined.

(** The rows of a board are as long as the board is high; on three rows of
    four cells the interior row has two interior cells and can repeat a
    height. *)
Example check_uniqueness_three_rows_of_four_cells :
  check_uniqueness_in_rows (map s ["****"; "*11*"; "****"]%string) = Ok false.
Proof. reflexivity. Qed.

(** C6: on a board of equal-length rows, an interior row that holds one
    height, other than the blank marker, at two interior positions makes
    [check_uniqueness_in_rows] return [False] for the whole board. *)
Theorem check_uniqueness_repeated_height
    (n : nat) (board : list str) (k i j : nat) (row : str) (c : ascii) :
  rows_of_length n board ->
  (0 < k)%nat -> (k + 1 < length board)%nat -> board !! k = Some row ->
  (0 < i)%nat -> (i < j)%nat -> (j + 1 < length row)%nat ->
  row !! i = Some c -> row !! j = Some c -> c <> "*"%char ->
  check_uniqueness_in_rows board = Ok false.
Proof.
  intros Hrows Hk Hk' Hrow Hi Hij Hj Hci Hcj Hc.
  assert (Hn : length row = n).
  { unfold rows_of_length in Hrows. rewrite Forall_forall in Hrows.
    apply Hrows, list_elem_of_lookup. now exists k. }
  rewrite check_uniqueness_in_rows_forallb.
  - f_equal. apply not_true_is_false. intros Hall.
    rewrite forallb_forall in Hall.
    assert (Hin : In row (interior board)).
    { apply list_elem_of_In, list_elem_of_lookup. exists (k - 1)%nat.
      rewrite lookup_interior by lia. rewrite <- Hrow. f_equal. lia. }
    specialize (Hall row Hin).
    now rewrite (repeated_height_not_unique row i j c) in Hall.
  - apply Forall_interior. unfold rows_of_length in Hrows.
    eapply Forall_impl; [exact Hrows|]. intros r Hr. simpl in Hr. lia.
Qed.

Lemma check_uniqueness_repeated_height_witness :
  check_uniqueness_in_rows
    (map s ["***21**"; "452453*"; "423145*"; "*543215"; "*35214*";
            "*41532*"; "*2*1***"]%string) = Ok false.
Proof.
  apply (check_uniqueness_repeated_height 7
           (map s ["***21**"; "452453*"; "423145*"; "*543215"; "*35214*";
                   "*41532*"; "*2*1***"]%string)
           1 1 4 (s "452453*") "5"%char).
  - repeat constructor.
  - lia.
  - simpl. lia.
  - reflexivity.
  - lia.
  - lia.
  - simpl. lia.
  - reflexivity.
  - reflexivity.
  - discriminate.
Defined.

(** Rows of one length are needed there: a row of fewer than two cells met
    before the repeat makes the check raise. *)
Example check_uniqueness_short_row_raises :
  check_uniqueness_in_rows (map s ["*"; ""; "*11*"; "*"]%string)
  = Raise IndexError.
Proof. reflexivity. Qed.

(** C10: two boards of one size that differ at most in their first and last
    rows get the same answer, value or exception, from
    [check_uniqueness_in_rows] and from [check_horizontal_visibility]. *)
Theorem row_checks_ignore_hint_rows (board1 board2 : list str) :
  length board1 = length board2 ->
  (forall i : nat, (0 < i)%nat -> (i + 1 < length board1)%nat ->
                   board1 !! i = board2 !! i) ->
  check_uniqueness_in_rows board1 = check_uniqueness_in_rows board2 /\
  check_horizontal_visibility board1 = check_horizontal_visibility board2.
Proof.
  intros Hlen Hsame.
  unfold check_uniqueness_in_rows, check_horizontal_visibility.
  rewrite !slice_interior, (interior_ext board1 board2 Hlen Hsame).
  split; reflexivity.
Qed.

Lemma row_checks_ignore_hint_rows_witness :
  check_uniqueness_in_rows (map s ["***21**"; "412453*"; "*2*1***"]%string)
  = check_uniqueness_in_rows (map s ["*******"; "412453*"; "*34512*"]%string)
  /\
  check_horizontal_visibility (map s ["***21**"; "412453*"; "*2*1***"]%string)
  = check_horizontal_visibility (map s ["*******"; "412453*"; "*34512*"]%string).
Proof.
  apply (row_checks_ignore_hint_rows
           (map s ["***21**"; "412453*"; "*2*1***"]%string)
           (map s ["*******"; "412453*"; "*34512*"]%string)).
  - reflexivity.
  - intros i Hi Hlt. simpl in Hlt.
    destruct i as [|[|i]]; [lia|reflexivity|lia].
Defined.

(** ** [check_not_finished_board] and [check_skyscrapers] *)

Lemma check_not_finished_board_true (board : list str) :
  check_not_finished_board board = true <->
  Forall (fun row => "?"%char ∉ row) board.
Proof.
  induction board as [|row board IH]; [now split; [constructor|]|].
  cbn [check_not_finished_board]. unfold contains.
  rewrite Forall_cons, <- IH.
  destruct (bool_decide_reflect ("?"%char ∈ row)) as [Hin|Hnotin].
  - split; [discriminate|now intros [Hnotin _]].
  - tauto.
Qed.

(** The completeness check answers [False] as soon as one cell holds the
    unfilled marker. *)
Lemma check_not_finished_board_unfinished (board : list str) :
  unfinished board -> check_not_finished_board board = false.
Proof.
  intros (row & Hrow & Hin). apply not_true_is_false.
  rewrite check_not_finished_board_true, Forall_forall.
  intros Hall. now apply (Hall row Hrow).
Qed.

(** What [check_skyscrapers] returns, when it returns, is the conjunction
    of the four checks. *)
Lemma check_skyscrapers_Ok (read_input : string -> res (list str))
    (input_path : string) (board : list str) (r : bool) :
  read_input input_path = Ok board ->
  check_skyscrapers read_input input_path = Ok r ->
  exists columns h_visibility uniqueness,
    check_columns board = Ok columns /\
    check_horizontal_visibility board = Ok h_visibility /\
    check_uniqueness_in_rows board = Ok uniqueness /\
    r = columns && h_visibility && check_not_finished_board board
        && uniqueness.
Proof.
  intros Hread. unfold check_skyscrapers. rewrite Hread. cbn [bind].
  destruct (check_columns board) as [columns|]; [|discriminate].
  destruct (check_horizontal_visibility board) as [h_visibility|];
    [|discriminate].
  destruct (check_uniqueness_in_rows board) as [uniqueness|]; [|discriminate].
  cbn [bind]. intros [= <-]. now exists columns, h_visibility, uniqueness.
Qed.

(** On an unfinished board [check_skyscrapers] never answers [True]. *)
Lemma check_skyscrapers_unfinished_not_true
    (read_input : string -> res (list str)) (input_path : string)
    (board : list str) :
  read_input input_path = Ok board -> unfinished board ->
  check_skyscrapers read_input input_path <> Ok true.
Proof.
  intros Hread Hunf Hres.
  destruct (check_skyscrapers_Ok _ _ _ _ Hread Hres)
    as (columns & h_visibility & uniqueness & _ & _ & _ & Hr).
  rewrite (check_not_finished_board_unfinished board Hunf) in Hr.
  now rewrite andb_false_r in Hr.
Qed.

(** The four checks on the unfinished doctest board: both visibility
    checks meet [int("?")]. *)
Example unfinished_txt_checks :
  check_uniqueness_in_rows unfinished_txt = Ok false /\
  check_horizontal_visibility unfinished_txt = Raise ValueError /\
  check_columns unfinished_txt = Raise ValueError.
Proof. repeat split; reflexivity. Qed.

(** C1 fails on the code.  The completeness check does answer [False] on
    the unfinished board of its own doctest, but [check_skyscrapers] runs
    the column and visibility checks before it looks at that answer, and
    these apply [int] to the unfilled marker: the call raises [ValueError]
    where the specification expects the value [False]. *)
Theorem check_skyscrapers_unfinished_raises (input_path : string) :
  unfinished unfinished_txt /\
  check_not_finished_board unfinished_txt = false /\
  check_skyscrapers (fun _ => Ok unfinished_txt) input_path
  = Raise ValueError.
Proof.
  split; [|split; reflexivity].
  exists (s "4?????*"). split.
  - apply list_elem_of_lookup. now exists 1%nat.
  - apply list_elem_of_lookup. now exists 1%nat.
Qed.

(** C3: [check_skyscrapers] returns a value exactly when the four checks
    (completeness, row uniqueness, row visibility and the column check, all
    on the board that was read) return one, and that value is their
    conjunction. *)
Theorem check_skyscrapers_conjunction
    (read_input : string -> res (list str)) (input_path : string)
    (board : list str) (r : bool) :
  read_input input_path = Ok board ->
  check_skyscrapers read_input input_path = Ok r <->
  exists uniqueness visibility columns,
    check_uniqueness_in_rows board = Ok uniqueness /\
    check_horizontal_visibility board = Ok visibility /\
    check_columns board = Ok columns /\
    r = check_not_finished_board board && uniqueness && visibility
        && columns.
Proof.
  intros Hread. split.
  - intros Hres.
    destruct (check_skyscrapers_Ok _ _ _ _ Hread Hres)
      as (columns & h_visibility & uniqueness & Hc & Hv & Hu & ->).
    exists uniqueness, h_visibility, columns. repeat split; try assumption.
    now destruct columns, h_visibility, uniqueness,
      (check_not_finished_board board).
  - intros (uniqueness & visibility & columns & Hu & Hv & Hc & ->).
    unfold check_skyscrapers. rewrite Hread. cbn [bind].
    rewrite Hc. cbn [bind]. rewrite Hv. cbn [bind]. rewrite Hu. cbn [bind].
    f_equal.
    now destruct columns, visibility, uniqueness,
      (check_not_finished_board board).
Qed.

Lemma check_skyscrapers_conjunction_witness :
  check_skyscrapers (fun _ => Ok check_txt) "check.txt" = Ok true <->
  exists uniqueness visibility columns,
    check_uniqueness_in_rows check_txt = Ok uniqueness /\
    check_horizontal_visibility check_txt = Ok visibility /\
    check_columns check_txt = Ok columns /\
    true = check_not_finished_board check_txt && uniqueness && visibility
           && columns.
Proof.
  apply (check_skyscrapers_conjunction (fun _ => Ok check_txt) "check.txt"
           check_txt true).
  reflexivity.
Defined.

(** ** The transposed board of [check_columns] *)

Ltac map_to_fmap :=
  repeat match goal with
         | |- context [@map ?A ?B ?f ?l] =>
             change (@map A B f l) with (f <$> l)
         end.

Lemma range_0_len {A : Type} (l : list A) :
  range 0 (len l) = map Z.of_nat (seq 0 (length l)).
Proof.
  unfold range, len. rewrite Z.sub_0_r, Nat2Z.id. apply map_ext. intros k. lia.
Qed.

(** A loop over [range(n)] that moves the state along [inv]. *)
Lemma for_each_range_invariant {S : Type} (n : nat) (inv : nat -> S)
    (body : Z -> S -> res S) :
  (forall j : nat, (j < n)%nat ->
                   body (Z.of_nat j) (inv j) = Ok (inv (Datatypes.S j))) ->
  for_each (range 0 (Z.of_nat n)) (inv 0%nat) body = Ok (inv n).
Proof.
  intros Hstep.
  assert (Hgen : forall k j : nat, (j + k = n)%nat ->
            for_each (range (Z.of_nat j) (Z.of_nat n)) (inv j) body = Ok (inv n)).
  { induction k as [|k IH]; intros j Hj.
    - replace j with n by lia. now rewrite range_nil.
    - rewrite range_cons by lia. cbn [for_each].
      rewrite Hstep by lia. cbn [bind].
      replace (Z.of_nat j + 1) with (Z.of_nat (Datatypes.S j)) by lia.
      apply IH. lia. }
  apply (Hgen n 0%nat). lia.
Qed.

Lemma setitem_nat {A : Type} (l : list A) (i : nat) (x : A) :
  (i < length l)%nat -> setitem l (Z.of_nat i) x = Ok (<[i := x]> l).
Proof.
  intros Hi. unfold setitem, norm_index, len.
  assert (Hneg : (Z.of_nat i <? 0) = false) by (apply Z.ltb_ge; lia).
  rewrite Hneg. cbv iota. rewrite Hneg.
  assert (Hle : (Z.of_nat (length l) <=? Z.of_nat i) = false)
    by (apply Z.leb_gt; lia).
  rewrite Hle. cbn [orb]. now rewrite Nat2Z.id.
Qed.

Lemma map_const_replicate {A B : Type} (x : B) (l : list A) :
  map (fun _ => x) l = replicate (length l) x.
Proof. induction l as [|a l IH]; [reflexivity|]. simpl. now rewrite IH. Qed.

Lemma join_chars (row : str) : join (map CStr row) = Ok row.
Proof.
  unfold join. induction row as [|c row IH]; [reflexivity|].
  cbn [map map_res bind]. now rewrite IH.
Qed.

Lemma joined_rows_strs (rows : list str) :
  joined_rows (map RStr rows) = Ok rows.
Proof.
  unfold joined_rows. induction rows as [|row rows IH]; [reflexivity|].
  cbn [map map_res bind]. now rewrite IH.
Qed.

Lemma length_column (board : list str) (i : nat) :
  length (column board i) = length board.
Proof. apply length_map. Qed.

Lemma length_transpose (board : list str) :
  length (transpose board) = length board.
Proof. unfold transpose. now rewrite length_map, length_seq. Qed.

Lemma lookup_column (board : list str) (i j : nat) (row : str) (c : ascii) :
  board !! j = Some row -> row !! i = Some c -> column board i !! j = Some c.
Proof.
  intros Hrow Hc. unfold column. map_to_fmap.
  rewrite list_lookup_fmap, Hrow. cbn. f_equal. now apply nth_lookup_Some.
Qed.

Lemma lookup_transpose (board : list str) (i : nat) :
  (i < length board)%nat -> transpose board !! i = Some (column board i).
Proof.
  intros Hi. unfold transpose. map_to_fmap.
  now rewrite list_lookup_fmap, lookup_seq_lt.
Qed.

(** The bodies of the two loops of [check_columns]. *)
Local Abbreviation inner_body board i :=
  (fun j reversed_board =>
     row <- getitem board j ;;
     c <- getitem row i ;;
     target <- getitem reversed_board i ;;
     match target with
     | RList cells =>
         cells <- setitem cells j (CStr c) ;;
         setitem reversed_board i (RList cells)
     | RStr _ => Raise TypeError
     end).

Local Abbreviation outer_body board :=
  (fun i reversed_board =>
     reversed_board <-
       for_each (range 0 (len board)) reversed_board (inner_body board i) ;;
     target <- getitem reversed_board i ;;
     match target with
     | RList cells =>
         row <- join cells ;;
         setitem reversed_board i (RStr row)
     | RStr row => setitem reversed_board i (RStr row)
     end).

(** A loop over [range(n)] that follows [inv] up to iteration [k], where
    the body raises. *)
Lemma for_each_range_raise {S : Type} (n k : nat) (inv : nat -> S)
    (body : Z -> S -> res S) (e : exn) :
  (k < n)%nat ->
  (forall j : nat, (j < k)%nat ->
                   body (Z.of_nat j) (inv j) = Ok (inv (Datatypes.S j))) ->
  body (Z.of_nat k) (inv k) = Raise e ->
  for_each (range 0 (Z.of_nat n)) (inv 0%nat) body = Raise e.
Proof.
  intros Hk Hstep Hraise.
  assert (Hgen : forall d j : nat, (j + d = k)%nat ->
            for_each (range (Z.of_nat j) (Z.of_nat n)) (inv j) body = Raise e).
  { induction d as [|d IH]; intros j Hj.
    - replace j with k by lia. rewrite range_cons by lia. cbn [for_each].
      now rewrite Hraise.
    - rewrite range_cons by lia. cbn [for_each].
      rewrite Hstep by lia. cbn [bind].
      replace (Z.of_nat j + 1) with (Z.of_nat (Datatypes.S j)) by lia.
      apply IH. lia. }
  apply (Hgen k 0%nat). lia.
Qed.

(** Below [n], a decidable property holds everywhere or fails somewhere
    for the first time. *)
Lemma first_failure (P : nat -> Prop) (Hdec : forall i, Decision (P i))
    (n : nat) :
  (forall i : nat, (i < n)%nat -> P i) \/
  (exists i : nat, (i < n)%nat /\ ~ P i /\
                   forall i' : nat, (i' < i)%nat -> P i').
Proof.
  induction n as [|n [Hall|(i & Hi & Hnot & Hbefore)]].
  - left. intros i Hi. lia.
  - destruct (Hdec n) as [Hn|Hn].
    + left. intros i Hi. destruct (decide (i = n)) as [->|Hne];
        [exact Hn|apply Hall; lia].
    + right. exists n. repeat split; [lia|exact Hn|exact Hall].
  - right. exists i. repeat split; [lia|exact Hnot|exact Hbefore].
Qed.

(** The first row that has no cell in column [i]. *)
Lemma first_short_row (board : list str) (i : nat) :
  ~ reaches i board ->
  exists (j : nat) (row : str),
    board !! j = Some row /\ (length row <= i)%nat /\
    forall (j' : nat) (row' : str),
      (j' < j)%nat -> board !! j' = Some row' -> (i < length row')%nat.
Proof.
  unfold reaches. induction board as [|row board IH]; intros Hshort.
  - exfalso. apply Hshort. constructor.
  - destruct (decide (i < length row)%nat) as [Hlong|Hnot].
    + destruct IH as (j & row' & Hbj & Hlen & Hbefore).
      { intros Hall. apply Hshort. now constructor. }
      exists (Datatypes.S j), row'. repeat split; [exact Hbj|exact Hlen|].
      intros [|j'] r Hj' Hr.
      * now injection Hr as <-.
      * apply (Hbefore j' r); [lia|exact Hr].
    + exists 0%nat, row. repeat split; [lia|]. intros j' r Hj'. lia.
Qed.

(** The first column that some row of a board that is not [wide] does not
    reach. *)
Lemma first_short_column (board : list str) :
  ~ wide board ->
  exists i : nat,
    (i < length board)%nat /\ ~ reaches i board /\
    forall i' : nat, (i' < i)%nat -> reaches i' board.
Proof.
  intros Hnarrow.
  destruct (first_failure (fun i => reaches i board)
              (fun i => Forall_dec _ board) (length board))
    as [Hall|Hex]; [|exact Hex].
  exfalso. apply Hnarrow. unfold wide. apply Forall_lookup_2.
  intros j row Hrow.
  destruct (Nat.le_gt_cases (length board) (length row)) as [Hle|Hgt];
    [exact Hle|].
  pose proof (Forall_lookup_1 _ _ _ _ (Hall (length row) Hgt) Hrow) as Habs.
  simpl in Habs. lia.
Qed.

Lemma transpose_loops_eq (board : list str) :
  transpose_loops board
  = for_each (range 0 (len board)) (zero_rows board) (outer_body board).
Proof. reflexivity. Qed.

(** Inner loop, iteration [j], when row [j] of the board has a cell in
    column [i]: cell [j] of row [i] of the store is written. *)
Lemma transpose_inner_step (board : list str) (i j : nat)
    (rows : list row_obj) (row : str) (c : ascii) :
  (i < length rows)%nat ->
  board !! j = Some row -> row !! i = Some c ->
  inner_body board (Z.of_nat i) (Z.of_nat j) (filled_upto board i rows j)
  = Ok (filled_upto board i rows (S j)).
Proof.
  intros Hi Hbj Hc.
  assert (Hj : (j < length board)%nat) by (eapply lookup_lt_Some; eauto).
  assert (Hzeros : length (zero_cells board) = length board).
  { unfold zero_cells. rewrite length_map, length_range. unfold len. lia. }
  destruct (lookup_lt_is_Some_2 (zero_cells board) j) as [z Hz]; [lia|].
  cbv beta. rewrite getitem_nat, Hbj. cbn [bind].
  rewrite getitem_nat, Hc. cbn [bind].
  rewrite getitem_nat. unfold filled_upto at 1.
  rewrite list_lookup_insert_eq by exact Hi. cbn [bind].
  assert (Hcol : column board i !! j = Some c)
    by now apply lookup_column with row.
  assert (Hpre : length (map CStr (take j (column board i))) = j).
  { rewrite length_map, length_take, length_column. lia. }
  rewrite setitem_nat by (rewrite length_app, Hpre, length_drop; lia).
  cbn [bind].
  rewrite setitem_nat by (unfold filled_upto; now rewrite length_insert).
  f_equal. unfold filled_upto. rewrite list_insert_insert_eq. do 2 f_equal.
  rewrite insert_app_r_alt by lia. rewrite Hpre, Nat.sub_diag.
  rewrite (drop_S _ _ _ Hz). cbn [insert list_insert].
  rewrite (take_S_r _ _ _ Hcol), map_app. cbn [map].
  now rewrite <- app_assoc.
Qed.

(** Inner loop, iteration [j], when row [j] of the board is too short:
    [board[j][i]] raises. *)
Lemma transpose_inner_step_short (board : list str) (i j : nat)
    (rows : list row_obj) (row : str) :
  board !! j = Some row -> (length row <= i)%nat ->
  inner_body board (Z.of_nat i) (Z.of_nat j) rows = Raise IndexError.
Proof.
  intros Hbj Hlen. cbv beta. rewrite getitem_nat, Hbj. cbn [bind].
  now rewrite getitem_nat, lookup_ge_None_2.
Qed.

Lemma filled_upto_0 (board : list str) (i : nat) (rows : list row_obj) :
  rows !! i = Some (RList (zero_cells board)) ->
  filled_upto board i rows 0 = rows.
Proof.
  intros Hrow. unfold filled_upto. rewrite take_0, drop_0. cbn [map app].
  now apply list_insert_id.
Qed.

(** The inner loop fills row [i] of the store with column [i] of the
    board; the other rows are left as they are. *)
Lemma transpose_inner_loop (board : list str) (i : nat)
    (rows : list row_obj) :
  reaches i board ->
  rows !! i = Some (RList (zero_cells board)) ->
  for_each (range 0 (len board)) rows (inner_body board (Z.of_nat i))
  = Ok (<[i := RList (map CStr (column board i))]> rows).
Proof.
  intros Hreach Hrow.
  assert (Hi : (i < length rows)%nat) by (eapply lookup_lt_Some; eauto).
  assert (Hn : filled_upto board i rows (length board)
               = <[i := RList (map CStr (column board i))]> rows).
  { unfold filled_upto. rewrite take_ge by (rewrite length_column; lia).
    rewrite drop_ge
      by (unfold zero_cells; rewrite length_map, length_range;
          unfold len; lia).
    now rewrite app_nil_r. }
  rewrite <- (filled_upto_0 board i rows Hrow) at 1. rewrite <- Hn.
  unfold len. apply for_each_range_invariant. intros j Hj.
  destruct (lookup_lt_is_Some_2 board j Hj) as [row Hbj].
  assert (Hlen : (i < length row)%nat)
    by exact (Forall_lookup_1 _ _ _ _ Hreach Hbj).
  destruct (lookup_lt_is_Some_2 row i Hlen) as [c Hc].
  now apply transpose_inner_step with row c.
Qed.

(** The inner loop raises at the first row of the board that has no cell
    in column [i]. *)
Lemma transpose_inner_loop_short (board : list str) (i : nat)
    (rows : list row_obj) :
  ~ reaches i board ->
  rows !! i = Some (RList (zero_cells board)) ->
  for_each (range 0 (len board)) rows (inner_body board (Z.of_nat i))
  = Raise IndexError.
Proof.
  intros Hshort Hrow.
  assert (Hi : (i < length rows)%nat) by (eapply lookup_lt_Some; eauto).
  destruct (first_short_row board i Hshort)
    as (j & row & Hbj & Hlen & Hbefore).
  rewrite <- (filled_upto_0 board i rows Hrow) at 1. unfold len.
  apply for_each_range_raise with j.
  - eapply lookup_lt_Some; eauto.
  - intros j' Hj'.
    assert (Hj'' : (j' < length board)%nat)
      by (apply lookup_lt_Some in Hbj; lia).
    destruct (lookup_lt_is_Some_2 board j' Hj'') as [row' Hbj'].
    destruct (lookup_lt_is_Some_2 row' i (Hbefore j' row' Hj' Hbj'))
      as [c Hc].
    now apply transpose_inner_step with row' c.
  - now apply transpose_inner_step_short with row.
Qed.

Lemma length_zero_rows (board : list str) :
  length (zero_rows board) = length board.
Proof.
  unfold zero_rows. rewrite length_map, length_range. unfold len. lia.
Qed.

Lemma lookup_zero_rows (board : list str) (i : nat) :
  (i < length board)%nat ->
  zero_rows board !! i = Some (RList (zero_cells board)).
Proof.
  intros Hi. unfold zero_rows.
  rewrite map_const_replicate, length_range.
  apply lookup_replicate_2. unfold len. lia.
Qed.

Lemma length_joined_prefix (board : list str) (i : nat) :
  (i <= length board)%nat ->
  length (map RStr (take i (transpose board))) = i.
Proof.
  intros Hi. rewrite length_map, length_take, length_transpose. lia.
Qed.

Lemma lookup_joined_upto (board : list str) (i : nat) :
  (i < length board)%nat ->
  joined_upto board i !! i = Some (RList (zero_cells board)).
Proof.
  intros Hi. unfold joined_upto.
  rewrite lookup_app_r by (rewrite length_joined_prefix; lia).
  rewrite length_joined_prefix, Nat.sub_diag, lookup_drop, Nat.add_0_r by lia.
  now apply lookup_zero_rows.
Qed.

(** Outer loop, iteration [i], when every row of the board has a cell in
    column [i]: row [i] of the store becomes the joined column. *)
Lemma transpose_outer_step (board : list str) (i : nat) :
  (i < length board)%nat -> reaches i board ->
  outer_body board (Z.of_nat i) (joined_upto board i)
  = Ok (joined_upto board (S i)).
Proof.
  intros Hi Hreach. pose proof (lookup_joined_upto board i Hi) as Hrow.
  assert (Hlen : (i < length (joined_upto board i))%nat)
    by (eapply lookup_lt_Some; eauto).
  cbv beta. rewrite (transpose_inner_loop board i _ Hreach Hrow). cbn [bind].
  rewrite getitem_nat, list_lookup_insert_eq by exact Hlen. cbn [bind].
  rewrite join_chars. cbn [bind].
  rewrite setitem_nat by now rewrite length_insert.
  f_equal. rewrite list_insert_insert_eq. unfold joined_upto.
  rewrite insert_app_r_alt by (rewrite length_joined_prefix; lia).
  rewrite length_joined_prefix, Nat.sub_diag by lia.
  rewrite (drop_S _ _ _ (lookup_zero_rows board i Hi)).
  cbn [insert list_insert].
  rewrite (take_S_r _ _ _ (lookup_transpose board i Hi)), map_app.
  cbn [map]. now rewrite <- app_assoc.
Qed.

Lemma transpose_outer_step_short (board : list str) (i : nat) :
  (i < length board)%nat -> ~ reaches i board ->
  outer_body board (Z.of_nat i) (joined_upto board i) = Raise IndexError.
Proof.
  intros Hi Hshort. cbv beta.
  now rewrite (transpose_inner_loop_short board i _ Hshort
                 (lookup_joined_upto board i Hi)).
Qed.

(** On a board whose rows have at least as many cells as the board has
    rows, the two loops build the transposed board. *)
Lemma transpose_loops_wide (board : list str) :
  wide board -> transpose_loops board = Ok (map RStr (transpose board)).
Proof.
  intros Hwide. rewrite transpose_loops_eq.
  assert (Hn : joined_upto board (length board)
               = map RStr (transpose board)).
  { unfold joined_upto. rewrite take_ge by (rewrite length_transpose; lia).
    rewrite drop_ge by (rewrite length_zero_rows; lia). apply app_nil_r. }
  rewrite <- Hn. change (zero_rows board) with (joined_upto board 0).
  unfold len. apply for_each_range_invariant. intros i Hi.
  apply transpose_outer_step; [exact Hi|].
  eapply Forall_impl; [exact Hwide|]. intros row Hlen. simpl in Hlen. lia.
Qed.

(** On any other board the loops raise [IndexError], at the first column
    that some row does not reach. *)
Lemma transpose_loops_narrow (board : list str) :
  ~ wide board -> transpose_loops board = Raise IndexError.
Proof.
  intros Hnarrow. rewrite transpose_loops_eq.
  destruct (first_short_column board Hnarrow) as (i & Hi & Hshort & Hbefore).
  change (zero_rows board) with (joined_upto board 0). unfold len.
  apply for_each_range_raise with i.
  - exact Hi.
  - intros i' Hi'. apply transpose_outer_step; [lia|now apply Hbefore].
  - now apply transpose_outer_step_short.
Qed.

Lemma reversed_board_wide (board : list str) :
  wide board -> reversed_board board = Ok (transpose board).
Proof.
  intros Hwide. unfold reversed_board.
  rewrite (transpose_loops_wide board Hwide). cbn [bind].
  apply joined_rows_strs.
Qed.

(** When the loops are over, every row of the store is a joined string:
    reading the store back as strings never fails. *)
Lemma transpose_loops_joined (board : list str) (rows : list row_obj) :
  transpose_loops board = Ok rows -> rows = map RStr (transpose board).
Proof.
  intros Hrows.
  destruct (Forall_dec (fun row => (length board <= length row)%nat) board)
    as [Hwide|Hnarrow].
  - rewrite (transpose_loops_wide board Hwide) in Hrows. congruence.
  - rewrite (transpose_loops_narrow board Hnarrow) in Hrows. discriminate.
Qed.

(** [reversed_board] on an arbitrary board: the transposed board, or
    [IndexError] when some row is shorter than the board is high. *)
Lemma reversed_board_cases (board : list str) :
  (wide board /\ reversed_board board = Ok (transpose board)) \/
  (~ wide board /\ reversed_board board = Raise IndexError).
Proof.
  destruct (Forall_dec (fun row => (length board <= length row)%nat) board)
    as [Hwide|Hnarrow].
  - left. split; [exact Hwide|now apply reversed_board_wide].
  - right. split; [exact Hnarrow|]. unfold reversed_board.
    now rewrite (transpose_loops_narrow board Hnarrow).
Qed.

Lemma square_wide (board : list str) : square board -> wide board.
Proof.
  intros Hsq. eapply Forall_impl; [exact Hsq|].
  intros row Hrow. simpl in Hrow. lia.
Qed.

Lemma square_row (board : list str) (i : nat) (row : str) :
  square board -> board !! i = Some row -> length row = length board.
Proof.
  intros Hsq Hrow. unfold square, rows_of_length in Hsq.
  rewrite Forall_lookup in Hsq. exact (Hsq i row Hrow).
Qed.

Lemma square_transpose (board : list str) : square (transpose board).
Proof.
  unfold square, rows_of_length. rewrite Forall_lookup. intros i row Hrow.
  assert (Hi : (i < length board)%nat)
    by (rewrite <- length_transpose; eapply lookup_lt_Some; eauto).
  rewrite (lookup_transpose board i Hi) in Hrow. injection Hrow as <-.
  now rewrite length_column, length_transpose.
Qed.

(** Position [(i, j)] of the transposed board is position [(j, i)] of the
    board. *)
Lemma cell_at_transpose (board : list str) (i j : nat) :
  square board -> cell_at (transpose board) i j = cell_at board j i.
Proof.
  intros Hsq. unfold cell_at.
  destruct (Nat.lt_ge_cases i (length board)) as [Hi|Hi].
  - rewrite (lookup_transpose board i Hi).
    destruct (board !! j) as [row|] eqn:Hrow.
    + assert (Hlen : (i < length row)%nat)
        by now rewrite (square_row board j row).
      destruct (lookup_lt_is_Some_2 row i Hlen) as [c Hc]. rewrite Hc.
      now apply lookup_column with row.
    + apply lookup_ge_None. rewrite length_column.
      now apply lookup_ge_None.
  - rewrite (lookup_ge_None_2 (transpose board) i)
      by now rewrite length_transpose.
    destruct (board !! j) as [row|] eqn:Hrow; [|reflexivity].
    symmetry. apply lookup_ge_None. now rewrite (square_row board j row).
Qed.

(** Transposing twice gives the board back. *)
Lemma transpose_involutive (board : list str) :
  square board -> transpose (transpose board) = board.
Proof.
  intros Hsq. apply list_eq. intros i.
  destruct (board !! i) as [row|] eqn:Hrow.
  - assert (Hi : (i < length board)%nat) by (eapply lookup_lt_Some; eauto).
    rewrite lookup_transpose by now rewrite length_transpose.
    f_equal. apply list_eq. intros j.
    pose proof (cell_at_transpose (transpose board) i j
                  (square_transpose board)) as Htt.
    rewrite (cell_at_transpose board j i Hsq) in Htt.
    unfold cell_at in Htt. rewrite Hrow in Htt.
    now rewrite lookup_transpose in Htt by now rewrite length_transpose.
  - apply lookup_ge_None. rewrite !length_transpose.
    now apply lookup_ge_None.
Qed.

(** C7: on a square board [check_columns] is the row-uniqueness check and
    the row-visibility check, both run on the transposed board, and the
    conjunction of their answers. *)
Theorem check_columns_transpose (board : list str) :
  square board ->
  check_columns board
  = both (check_uniqueness_in_rows (transpose board))
         (check_horizontal_visibility (transpose board)).
Proof.
  intros Hsq. unfold check_columns, both.
  now rewrite (reversed_board_wide board (square_wide board Hsq)).
Qed.

Lemma check_columns_transpose_witness :
  check_columns check_txt
  = both (check_uniqueness_in_rows (transpose check_txt))
         (check_horizontal_visibility (transpose check_txt)).
Proof.
  apply (check_columns_transpose check_txt). repeat constructor.
Defined.

(** C8: on a square board the loops of [check_columns] return a board whose
    position [(i, j)] is position [(j, i)] of the input, and running them on
    that result gives the input back. *)
Theorem reversed_board_involution (board : list str) :
  square board ->
  exists transposed,
    reversed_board board = Ok transposed /\
    (forall i j : nat, cell_at transposed i j = cell_at board j i) /\
    reversed_board transposed = Ok board.
Proof.
  intros Hsq. exists (transpose board). split; [|split].
  - apply reversed_board_wide, square_wide, Hsq.
  - intros i j. now apply cell_at_transpose.
  - rewrite reversed_board_wide by apply square_wide, square_transpose.
    f_equal. now apply transpose_involutive.
Qed.

Lemma reversed_board_involution_witness :
  exists transposed,
    reversed_board check_txt = Ok transposed /\
    (forall i j : nat, cell_at transposed i j = cell_at check_txt j i) /\
    reversed_board transposed = Ok check_txt.
Proof.
  apply (reversed_board_involution check_txt). repeat constructor.
Defined.

(** * Further properties of the module *)

(** ** [check_rows]: edge cases and bounds *)

Lemma count_from_le (m : Z) (l : list Z) : (count_from m l <= length l)%nat.
Proof.
  revert m. induction l as [|x l IH]; intros m; [reflexivity|].
  cbn [count_from length]. specialize (IH (Z.max x m)).
  destruct (x >? m); lia.
Qed.

Lemma count_from_app_le (m : Z) (l l' : list Z) :
  (count_from m l <= count_from m (l ++ l'))%nat.
Proof.
  revert m. induction l as [|x l IH]; intros m; [cbn; lia|].
  cbn [app count_from]. specialize (IH (Z.max x m)). lia.
Qed.

Lemma count_from_dominated (m : Z) (l : list Z) :
  Forall (fun x => x <= m) l -> count_from m l = 0%nat.
Proof.
  induction 1 as [|x l Hx _ IH]; [reflexivity|].
  cbn [count_from]. rewrite Z.max_r by lia. rewrite IH.
  destruct (Z.gtb_spec x m); [lia|reflexivity].
Qed.

Lemma count_from_increasing (m : Z) (l : list Z) :
  Sorted Z.lt (m :: l) -> count_from m l = length l.
Proof.
  revert m. induction l as [|x l IH]; intros m Hsorted; [reflexivity|].
  apply Sorted_inv in Hsorted as [Hsorted Hhd].
  apply HdRel_inv in Hhd. cbn [count_from length].
  rewrite Z.max_l by lia. rewrite (IH x Hsorted).
  destruct (Z.gtb_spec x m); [reflexivity|lia].
Qed.

(** X1: [check_rows] raises on the empty row only, and then [IndexError]. *)
Theorem check_rows_raises_iff_empty (row_1 : list Z) (num : Z) (e : exn) :
  check_rows row_1 num = Raise e <-> row_1 = [] /\ e = IndexError.
Proof.
  destruct row_1 as [|h t].
  - split; [intros [= <-]; now split|now intros [_ ->]].
  - rewrite check_rows_count. split; [discriminate|now intros [? _]].
Qed.

(** X2: The first building is always seen and at most every building is: a
    hint up to 1 is always satisfied, a hint above the number of buildings
    never. *)
Theorem check_rows_hint_bounds (row_1 : list Z) (num : Z) :
  row_1 <> [] ->
  (num <= 1 -> check_rows row_1 num = Ok true) /\
  (num > len row_1 -> check_rows row_1 num = Ok false).
Proof.
  intros Hne. destruct row_1 as [|h t]; [congruence|].
  rewrite check_rows_count. pose proof (count_from_le h t) as Hle.
  split; intros Hnum; f_equal.
  - apply Z.geb_le. lia.
  - rewrite len_cons in Hnum. unfold len in Hnum.
    destruct (Z.geb_spec (Z.of_nat (S (count_from h t))) num);
      [lia|reflexivity].
Qed.

Lemma check_rows_hint_bounds_witness :
  check_rows [3; 1; 2] 1 = Ok true /\ check_rows [3; 1; 2] 4 = Ok false.
Proof.
  assert (Hne : [3; 1; 2] <> []) by discriminate.
  split.
  - apply (check_rows_hint_bounds [3; 1; 2] 1 Hne). lia.
  - apply (check_rows_hint_bounds [3; 1; 2] 4 Hne). vm_compute. reflexivity.
Defined.

(** X3: Buildings added at the far end never hide one that was seen: a hint
    satisfied by a row stays satisfied when the row is extended. *)
Theorem check_rows_extend (row_1 more : list Z) (num : Z) :
  check_rows row_1 num = Ok true ->
  check_rows (row_1 ++ more) num = Ok true.
Proof.
  destruct row_1 as [|h t]; [discriminate|].
  cbn [app]. rewrite !check_rows_count. intros [= Hnum]. f_equal.
  apply Z.geb_le. apply Z.geb_le in Hnum.
  pose proof (count_from_app_le h t more). lia.
Qed.

Lemma check_rows_extend_witness :
  check_rows ([1; 3] ++ [2; 5]) 2 = Ok true.
Proof. apply (check_rows_extend [1; 3] [2; 5] 2). reflexivity. Defined.

(** X4: When no building is taller than the first one, only the first one is
    seen: the answer is [True] exactly for the hints up to 1. *)
Theorem check_rows_tallest_first (h : Z) (t : list Z) (num : Z) :
  Forall (fun x => x <= h) t ->
  check_rows (h :: t) num = Ok (num <=? 1).
Proof.
  intros Hall. rewrite check_rows_count, (count_from_dominated h t Hall).
  f_equal. apply Z.geb_leb.
Qed.

Lemma check_rows_tallest_first_witness :
  check_rows [5; 2; 4; 5; 3] 4 = Ok (4 <=? 1).
Proof.
  apply (check_rows_tallest_first 5 [2; 4; 5; 3] 4).
  repeat constructor; lia.
Defined.

(** X5: In a strictly increasing row every building is seen: the answer is
    [True] exactly for the hints up to the length of the row. *)
Theorem check_rows_increasing (h : Z) (t : list Z) (num : Z) :
  Sorted Z.lt (h :: t) ->
  check_rows (h :: t) num = Ok (num <=? len (h :: t)).
Proof.
  intros Hsorted. rewrite check_rows_count, (count_from_increasing h t Hsorted).
  f_equal. rewrite Z.geb_leb. unfold len. reflexivity.
Qed.

Lemma check_rows_increasing_witness :
  check_rows [1; 2; 4; 5] 4 = Ok (4 <=? len [1; 2; 4; 5]).
Proof.
  apply (check_rows_increasing 1 [2; 4; 5] 4).
  repeat constructor; lia.
Defined.

(** ** [check_uniqueness_in_rows]: what decides the answer *)

(** The body of the loop of [check_uniqueness_in_rows]. *)
Local Abbreviation uniqueness_row :=
  (fun (row : str) (_ : unit) =>
     '(_, row) <- pop row 0 ;;
     '(_, row) <- pop row (-1) ;;
     let row := filter (fun x => x <> "*"%char) row in
     if negb (len row =? len_set row) then Ok (Return false)
     else Ok (Next tt)).

Lemma uniqueness_row_cases (row : str) :
  uniqueness_row row tt
  = if decide (2 <= length row)%nat
    then Ok (if row_unique row then Next tt else Return false)
    else Raise IndexError.
Proof.
  destruct (decide (2 <= length row)%nat) as [Hlen|Hlen].
  - destruct (interior_shape row Hlen) as (a & b & Hshape).
    generalize dependent (interior row). intros r ->.
    apply uniqueness_body.
  - apply uniqueness_body_short. lia.
Qed.

(** The loop stops with [IndexError] at a row of fewer than two cells that
    comes after rows without repeats. *)
Lemma uniqueness_loop_short (pre post : list str) (row : str) :
  Forall (fun r => (2 <= length r)%nat /\ NoDup (row_heights r)) pre ->
  (length row < 2)%nat ->
  for_loop (pre ++ row :: post) tt uniqueness_row = Raise IndexError.
Proof.
  intros Hpre Hrow. induction Hpre as [|r pre [Hlen Hnodup] _ IH].
  - cbn [app for_loop]. rewrite uniqueness_row_cases.
    now destruct (decide (2 <= length row)%nat); [lia|].
  - cbn [app for_loop]. rewrite uniqueness_row_cases.
    destruct (decide (2 <= length r)%nat); [|lia]. cbn [bind].
    apply row_unique_NoDup in Hnodup. rewrite Hnodup. exact IH.
Qed.

(** Rows that agree in length and on their interior cells get the same
    treatment. *)
Lemma uniqueness_loop_hints (rows1 rows2 : list str) :
  Forall2 (fun r1 r2 => length r1 = length r2 /\ interior r1 = interior r2)
          rows1 rows2 ->
  for_loop rows1 tt uniqueness_row = for_loop rows2 tt uniqueness_row.
Proof.
  induction 1 as [|r1 r2 rows1 rows2 [Hlen Hint] _ IH]; [reflexivity|].
  cbn [for_loop]. rewrite !uniqueness_row_cases, <- Hlen.
  destruct (decide (2 <= length r1)%nat); [|reflexivity]. cbn [bind].
  unfold row_unique, row_heights. rewrite <- Hint.
  destruct (_ =? _); [exact IH|reflexivity].
Qed.

Lemma Forall2_interior {A B : Type} (R : A -> B -> Prop)
    (l1 : list A) (l2 : list B) :
  Forall2 R l1 l2 -> Forall2 R (interior l1) (interior l2).
Proof.
  intros Hall. unfold interior. rewrite <- (Forall2_length _ _ _ Hall).
  now apply Forall2_take, Forall2_drop.
Qed.

(** X6: On a board whose interior rows have at least two cells,
    [check_uniqueness_in_rows] answers [True] exactly when no interior row
    repeats a value other than the blank marker among its interior cells. *)
Theorem check_uniqueness_true_iff (board : list str) :
  Forall (fun row => (2 <= length row)%nat) (interior board) ->
  check_uniqueness_in_rows board = Ok true <->
  Forall (fun row => NoDup (row_heights row)) (interior board).
Proof.
  intros Hrows. rewrite (check_uniqueness_in_rows_forallb board Hrows).
  rewrite Forall_forall. split.
  - intros [= Hall] row Hrow. apply row_unique_NoDup.
    rewrite forallb_forall in Hall. now apply Hall, list_elem_of_In.
  - intros Hall. f_equal. apply forallb_forall. intros row Hrow.
    now apply row_unique_NoDup, Hall, list_elem_of_In.
Qed.

Lemma check_uniqueness_true_iff_witness :
  check_uniqueness_in_rows check_txt = Ok true <->
  Forall (fun row => NoDup (row_heights row)) (interior check_txt).
Proof.
  apply (check_uniqueness_true_iff check_txt).
  repeat constructor; simpl; lia.
Defined.

(** X7: An interior row of fewer than two cells makes
    [check_uniqueness_in_rows] raise [IndexError], when the interior rows
    before it have at least two cells and no repeat. *)
Theorem check_uniqueness_short_row (board pre post : list str) (row : str) :
  interior board = pre ++ row :: post ->
  Forall (fun r => (2 <= length r)%nat /\ NoDup (row_heights r)) pre ->
  (length row < 2)%nat ->
  check_uniqueness_in_rows board = Raise IndexError.
Proof.
  intros Hboard Hpre Hrow.
  pose proof (uniqueness_loop_short pre post row Hpre Hrow) as Hloop.
  unfold check_uniqueness_in_rows. rewrite slice_interior, Hboard.
  cbv zeta in Hloop |- *. now rewrite Hloop.
Qed.

Lemma check_uniqueness_short_row_witness :
  check_uniqueness_in_rows (map s ["****"; "*12*"; "*"; "*11*"; "****"]%string)
  = Raise IndexError.
Proof.
  apply (check_uniqueness_short_row
           (map s ["****"; "*12*"; "*"; "*11*"; "****"]%string)
           [s "*12*"] [s "*11*"] (s "*")).
  - reflexivity.
  - constructor; [split; [simpl; lia|]|constructor].
    apply row_unique_NoDup. reflexivity.
  - simpl. lia.
Defined.

(** X8: [check_uniqueness_in_rows] does not read the first and the last cell
    of a row: two boards whose rows agree in length and on their interior
    cells get the same answer, value or exception. *)
Theorem check_uniqueness_ignores_hint_cells (board1 board2 : list str) :
  Forall2 (fun r1 r2 => length r1 = length r2 /\ interior r1 = interior r2)
          board1 board2 ->
  check_uniqueness_in_rows board1 = check_uniqueness_in_rows board2.
Proof.
  intros Hrows.
  pose proof (uniqueness_loop_hints _ _ (Forall2_interior _ _ _ Hrows))
    as Hloop.
  unfold check_uniqueness_in_rows. rewrite !slice_interior.
  cbv zeta in Hloop |- *. now rewrite Hloop.
Qed.

Lemma check_uniqueness_ignores_hint_cells_witness :
  check_uniqueness_in_rows (map s ["****"; "412*"; "****"]%string)
  = check_uniqueness_in_rows (map s ["3**1"; "*123"; "2**4"]%string).
Proof.
  apply (check_uniqueness_ignores_hint_cells
           (map s ["****"; "412*"; "****"]%string)
           (map s ["3**1"; "*123"; "2**4"]%string)).
  cbn [map].
  repeat (constructor; [split; reflexivity|]). constructor.
Defined.

(** ** [check_horizontal_visibility]: when it returns, and what *)

(** [int] on a character: the value of a digit, [ValueError] otherwise. *)
Lemma int_of_char_cases (c : ascii) :
  (is_digit c /\ int_of_char c = Ok (digit_value c)) \/
  (~ is_digit c /\ int_of_char c = Raise ValueError).
Proof.
  unfold is_digit.
  destruct c as [[] [] [] [] [] [] [] []];
    first [left; split; [vm_compute; lia|reflexivity]
          |right; split; [vm_compute; lia|reflexivity]].
Qed.

Lemma map_int_cases (l : str) :
  (Forall is_digit l /\ map_res int_of_char l = Ok (map digit_value l)) \/
  (~ Forall is_digit l /\ map_res int_of_char l = Raise ValueError).
Proof.
  induction l as [|c l IH]; [left; now split|].
  cbn [map_res map].
  destruct (int_of_char_cases c) as [[Hc ->]|[Hc ->]]; cbn [bind].
  - destruct IH as [[Hl ->]|[Hl ->]]; cbn [bind].
    + left. split; [now constructor|reflexivity].
    + right. split; [|reflexivity]. intros Hall. apply Hl.
      now apply Forall_cons in Hall as [_ Hall].
  - right. split; [|reflexivity]. intros Hall. apply Hc.
    now apply Forall_cons in Hall as [Hall _].
Qed.

Lemma getitem_head {A : Type} (l : list A) :
  getitem l 0
  = match head l with Some x => Ok x | None => Raise IndexError end.
Proof. now destruct l. Qed.

Lemma getitem_minus_1 {A : Type} (l : list A) :
  getitem l (-1)
  = match last l with Some x => Ok x | None => Raise IndexError end.
Proof.
  destruct l as [|x l _] using rev_ind; [reflexivity|].
  now rewrite getitem_last, last_snoc.
Qed.

Lemma check_rows_cases (heights : list Z) (num : Z) :
  (heights <> [] /\
   check_rows heights num = Ok (num <=? Z.of_nat (visible_count heights))) \/
  (heights = [] /\ check_rows heights num = Raise IndexError).
Proof.
  destruct heights as [|h t]; [right; now split|left].
  split; [discriminate|].
  rewrite check_rows_count, visible_count_cons. f_equal. apply Z.geb_leb.
Qed.

(** The use the loop body makes of one hint cell. *)
Lemma use_hint_cases (hint : ascii) (heights : list Z) (results : list bool) :
  (hint_usable hint heights /\
   (if bool_decide (hint <> "*"%char) then
      num <- int_of_char hint ;;
      r <- check_rows heights num ;;
      Ok (results ++ [r])
    else Ok results) = Ok (results ++ hint_answer hint heights)) \/
  (~ hint_usable hint heights /\
   exists e,
     (if bool_decide (hint <> "*"%char) then
        num <- int_of_char hint ;;
        r <- check_rows heights num ;;
        Ok (results ++ [r])
      else Ok results) = Raise e).
Proof.
  unfold hint_usable, hint_answer.
  destruct (bool_decide_reflect (hint <> "*"%char)) as [Hhint|Hblank].
  - destruct (int_of_char_cases hint) as [[Hd ->]|[Hd ->]]; cbn [bind].
    + destruct (check_rows_cases heights (digit_value hint))
        as [[Hne ->]|[Hnil ->]]; cbn [bind].
      * left. split; [right; now split|reflexivity].
      * right. split; [tauto|now exists IndexError].
    + right. split; [tauto|now exists ValueError].
  - left. split; [left; now destruct (decide (hint = "*"%char))|].
    now rewrite app_nil_r.
Qed.

Lemma hint_usable_reverse (hint : ascii) (heights : list Z) :
  hint_usable hint (reverse heights) <-> hint_usable hint heights.
Proof.
  unfold hint_usable.
  assert (Hnil : reverse heights = [] <-> heights = []).
  { split; [|now intros ->].
    intros Hrev. apply (f_equal reverse) in Hrev.
    now rewrite reverse_involutive in Hrev. }
  tauto.
Qed.

(** The body of the loop of [check_horizontal_visibility]. *)
Local Abbreviation visibility_row :=
  (fun (row : str) (results : list bool) =>
     let row_1 := slice row (Some 1) (Some (-1)) in
     let row_1 := filter (fun x => x <> "*"%char) row_1 in
     row_1 <- map_res int_of_char row_1 ;;
     c <- getitem row 0 ;;
     results <-
       (if bool_decide (c <> "*"%char) then
          num <- int_of_char c ;;
          r <- check_rows row_1 num ;;
          Ok (results ++ [r])
        else Ok results) ;;
     c <- getitem row (-1) ;;
     if bool_decide (c <> "*"%char) then
       let row_1 := reverse row_1 in
       num <- int_of_char c ;;
       r <- check_rows row_1 num ;;
       Ok (results ++ [r])
     else Ok results).

(** One iteration: on a readable row the answers to its hints are
    appended, on any other row the body raises. *)
Lemma visibility_row_cases (row : str) (results : list bool) :
  (row_readable row /\
   visibility_row row results = Ok (results ++ hint_answers row)) \/
  (~ row_readable row /\ exists e, visibility_row row results = Raise e).
Proof.
  cbv beta zeta. rewrite slice_interior.
  change (filter (fun x => x <> "*"%char) (interior row))
    with (row_heights row).
  unfold row_readable, hint_answers, row_numbers.
  destruct (map_int_cases (row_heights row)) as [[Hd ->]|[Hd ->]];
    cbn [bind]; [|right; split; [tauto|now exists ValueError]].
  rewrite getitem_head.
  destruct (head row) as [left_hint|];
    [|right; split; [|now exists IndexError];
      intros (_ & l & r & [=] & _)].
  cbn [bind].
  destruct (use_hint_cases left_hint (map digit_value (row_heights row))
              results) as [[Hleft ->]|[Hleft [e ->]]]; cbn [bind];
    [|right; split; [|now exists e];
      intros (_ & l & r & [= <-] & _ & Hl & _); tauto].
  rewrite getitem_minus_1.
  destruct (last row) as [right_hint|];
    [|right; split; [|now exists IndexError];
      intros (_ & l & r & _ & [=] & _)].
  cbn [bind].
  destruct (use_hint_cases right_hint
              (reverse (map digit_value (row_heights row)))
              (results ++ hint_answer left_hint
                            (map digit_value (row_heights row))))
    as [[Hright ->]|[Hright [e ->]]].
  - left. apply (proj1 (hint_usable_reverse _ _)) in Hright. split.
    + split; [exact Hd|]. exists left_hint, right_hint.
      repeat split; assumption.
    + now rewrite app_assoc.
  - right. split; [|now exists e].
    intros (_ & l & r & _ & [= <-] & _ & Hr).
    apply Hright. now apply (proj2 (hint_usable_reverse _ _)).
Qed.

Lemma visibility_loop_cases (rows : list str) (results : list bool) :
  (Forall row_readable rows /\
   for_each rows results visibility_row
   = Ok (results ++ flat_map hint_answers rows)) \/
  (~ Forall row_readable rows /\
   exists e, for_each rows results visibility_row = Raise e).
Proof.
  revert results. induction rows as [|row rows IH]; intros results.
  - left. split; [constructor|]. cbn. now rewrite app_nil_r.
  - cbn [for_each flat_map].
    pose proof (visibility_row_cases row results) as Hbody.
    cbv beta zeta in Hbody |- *.
    destruct Hbody as [[Hrow ->]|[Hrow [e ->]]]; cbn [bind].
    + specialize (IH (results ++ hint_answers row)).
      cbv beta zeta in IH.
      destruct IH as [[Hrows ->]|[Hrows [e ->]]].
      * left. split; [now constructor|now rewrite app_assoc].
      * right. split; [|now exists e]. intros Hall. apply Hrows.
        now apply Forall_cons in Hall as [_ Hall].
    + right. split; [|now exists e]. intros Hall. apply Hrow.
      now apply Forall_cons in Hall as [Hall _].
Qed.

Lemma contains_app {A : Type} `{EqDecision A} (x : A) (l1 l2 : list A) :
  contains x (l1 ++ l2) = contains x l1 || contains x l2.
Proof.
  unfold contains.
  destruct (bool_decide_reflect (x ∈ l1)) as [H1|H1],
           (bool_decide_reflect (x ∈ l2)) as [H2|H2]; cbn [orb];
    [apply bool_decide_eq_true..|apply bool_decide_eq_false];
    rewrite elem_of_app; tauto.
Qed.

Lemma contains_hint_answer (hint : ascii) (heights : list Z) :
  contains false (hint_answer hint heights)
  = negb (hint_satisfied hint heights).
Proof.
  unfold hint_answer, hint_satisfied.
  destruct (decide (hint = "*"%char)) as [->|Hne]; [reflexivity|].
  rewrite (bool_decide_eq_true_2 _ Hne), (bool_decide_eq_false_2 _ Hne).
  cbn [orb]. now destruct (_ <=? _).
Qed.

Lemma contains_hint_answers (rows : list str) :
  contains false (flat_map hint_answers rows)
  = negb (forallb row_visible rows).
Proof.
  induction rows as [|row rows IH]; [reflexivity|].
  cbn [flat_map forallb]. rewrite contains_app, IH, negb_andb. f_equal.
  unfold hint_answers, row_visible.
  destruct (head row), (last row); try reflexivity.
  now rewrite contains_app, !contains_hint_answer, negb_andb.
Qed.

(** [check_horizontal_visibility] on any board: the conjunction of the
    row answers when every interior row is readable, an exception
    otherwise. *)
Lemma check_horizontal_visibility_cases (board : list str) :
  (Forall row_readable (interior board) /\
   check_horizontal_visibility board
   = Ok (forallb row_visible (interior board))) \/
  (~ Forall row_readable (interior board) /\
   exists e, check_horizontal_visibility board = Raise e).
Proof.
  pose proof (visibility_loop_cases (interior board) []) as Hloop.
  unfold check_horizontal_visibility. rewrite slice_interior.
  cbv zeta in Hloop |- *.
  destruct Hloop as [[Hrows ->]|[Hrows [e ->]]]; cbn [bind app].
  - left. split; [exact Hrows|]. rewrite contains_hint_answers.
    now destruct (forallb row_visible (interior board)).
  - right. split; [exact Hrows|now exists e].
Qed.

(** X10: On a board whose interior rows are readable,
    [check_horizontal_visibility] answers [True] exactly when, in every
    interior row, each hint present asks for no more buildings than are
    visible from its side. *)
Theorem check_horizontal_visibility_readable (board : list str) :
  Forall row_readable (interior board) ->
  check_horizontal_visibility board
  = Ok (forallb row_visible (interior board)).
Proof.
  intros Hall.
  destruct (check_horizontal_visibility_cases board)
    as [[_ ->]|[Hrows _]]; [reflexivity|now destruct Hrows].
Qed.

Lemma check_horizontal_visibility_readable_witness :
  check_horizontal_visibility (map s ["****"; "2132"; "****"]%string)
  = Ok (forallb row_visible (interior (map s ["****"; "2132"; "****"]%string))).
Proof.
  apply (check_horizontal_visibility_readable
           (map s ["****"; "2132"; "****"]%string)).
  constructor; [|constructor]. split.
  - vm_compute. repeat constructor.
  - exists "2"%char, "2"%char. repeat split; try reflexivity;
      (right; split; [vm_compute; repeat constructor|discriminate]).
Defined.

Lemma unfilled_not_digit : ~ is_digit "?"%char.
Proof. vm_compute. lia. Qed.

(** X11: The unfilled marker in an interior cell of an interior row makes
    [check_horizontal_visibility] raise: [int] is applied to it. *)
Theorem check_horizontal_visibility_unfilled_cell
    (board : list str) (row : str) :
  row ∈ interior board -> "?"%char ∈ interior row ->
  exists e, check_horizontal_visibility board = Raise e.
Proof.
  intros Hrow Hc.
  destruct (check_horizontal_visibility_cases board)
    as [[Hrows _]|[_ Hraise]]; [exfalso|exact Hraise].
  rewrite Forall_forall in Hrows. destruct (Hrows row Hrow) as [Hdigits _].
  rewrite Forall_forall in Hdigits. apply unfilled_not_digit, Hdigits.
  unfold row_heights. now apply list_elem_of_filter.
Qed.

Lemma check_horizontal_visibility_unfilled_cell_witness :
  exists e, check_horizontal_visibility unfinished_txt = Raise e.
Proof.
  apply (check_horizontal_visibility_unfilled_cell unfinished_txt
           (s "4?????*")).
  - apply list_elem_of_lookup. now exists 0%nat.
  - apply list_elem_of_lookup. now exists 0%nat.
Defined.

(** ** [check_horizontal_visibility]: left and right are symmetric *)

Lemma interior_map {A B : Type} (f : A -> B) (l : list A) :
  interior (map f l) = map f (interior l).
Proof.
  unfold interior. now rewrite length_map, skipn_map, firstn_map.
Qed.

Lemma interior_reverse {A : Type} (l : list A) :
  interior (reverse l) = reverse (interior l).
Proof.
  destruct (decide (2 <= length l)%nat) as [Hlen|Hlen].
  - destruct (interior_shape l Hlen) as (a & b & Hshape).
    generalize dependent (interior l). intros r ->.
    rewrite reverse_cons, reverse_snoc. cbn [app].
    apply interior_cons_snoc.
  - rewrite !interior_short; [reflexivity|lia|rewrite length_reverse; lia].
Qed.

Lemma row_heights_reverse (row : str) :
  row_heights (reverse row) = reverse (row_heights row).
Proof. unfold row_heights. now rewrite interior_reverse, filter_reverse. Qed.

Lemma row_numbers_reverse (row : str) :
  row_numbers (reverse row) = reverse (row_numbers row).
Proof.
  unfold row_numbers. rewrite row_heights_reverse. map_to_fmap.
  apply fmap_reverse.
Qed.

Lemma row_readable_reverse (row : str) :
  row_readable row -> row_readable (reverse row).
Proof.
  intros (Hd & l & r & Hl & Hr & Hul & Hur). split.
  - rewrite row_heights_reverse. now apply Forall_reverse.
  - exists r, l. rewrite head_reverse, last_reverse, row_numbers_reverse.
    repeat split; try assumption;
      now apply (proj2 (hint_usable_reverse _ _)).
Qed.

Lemma row_visible_reverse (row : str) :
  row_visible (reverse row) = row_visible row.
Proof.
  unfold row_visible.
  rewrite head_reverse, last_reverse, row_numbers_reverse, reverse_involutive.
  destruct (head row), (last row); try reflexivity. apply andb_comm.
Qed.

(** X12: Mirroring every row of a board left to right does not change the
    answer of [check_horizontal_visibility], when the interior rows are
    readable. *)
Theorem check_horizontal_visibility_mirror (board : list str) :
  Forall row_readable (interior board) ->
  check_horizontal_visibility (map reverse board)
  = check_horizontal_visibility board.
Proof.
  intros Hall.
  destruct (check_horizontal_visibility_cases board)
    as [[_ ->]|[Hrows _]]; [|now destruct Hrows].
  destruct (check_horizontal_visibility_cases (map reverse board))
    as [[_ ->]|[Hrows _]].
  - rewrite interior_map. f_equal.
    induction (interior board) as [|row rows IH]; [reflexivity|].
    apply Forall_cons in Hall as [_ Hall].
    cbn [map forallb]. now rewrite row_visible_reverse, IH.
  - destruct Hrows. rewrite interior_map.
    induction Hall as [|row rows Hrow _ IH]; [constructor|].
    cbn [map]. constructor; [now apply row_readable_reverse|exact IH].
Qed.

Lemma check_horizontal_visibility_mirror_witness :
  check_horizontal_visibility
    (map reverse (map s ["****"; "2132"; "****"]%string))
  = check_horizontal_visibility (map s ["****"; "2132"; "****"]%string).
Proof.
  apply (check_horizontal_visibility_mirror
           (map s ["****"; "2132"; "****"]%string)).
  constructor; [|constructor]. split.
  - vm_compute. repeat constructor.
  - exists "2"%char, "2"%char. repeat split; try reflexivity;
      (right; split; [vm_compute; repeat constructor|discriminate]).
Defined.

(** ** [check_columns]: boards that are not square *)

Lemma short_row_not_wide (board : list str) (row : str) :
  row ∈ board -> (length row < length board)%nat -> ~ wide board.
Proof.
  intros Hrow Hlen Hwide. unfold wide in Hwide.
  rewrite Forall_forall in Hwide. specialize (Hwide row Hrow).
  simpl in Hwide. lia.
Qed.

(** X13: A row with fewer cells than the board has rows makes [check_columns]
    raise [IndexError]. *)
Theorem check_columns_short_row (board : list str) (row : str) :
  row ∈ board -> (length row < length board)%nat ->
  check_columns board = Raise IndexError.
Proof.
  intros Hrow Hlen. unfold check_columns, reversed_board.
  now rewrite (transpose_loops_narrow board
                 (short_row_not_wide board row Hrow Hlen)).
Qed.

Lemma check_columns_short_row_witness :
  check_columns (map s ["***"; "*1"; "***"]%string) = Raise IndexError.
Proof.
  apply (check_columns_short_row (map s ["***"; "*1"; "***"]%string)
           (s "*1")).
  - apply list_elem_of_lookup. now exists 1%nat.
  - simpl. lia.
Defined.

Lemma column_take (board : list str) (i : nat) :
  (i < length board)%nat ->
  column (map (take (length board)) board) i = column board i.
Proof.
  intros Hi. unfold column. rewrite map_map. apply map_ext. intros row.
  rewrite nth_firstn. now destruct (Nat.ltb_spec i (length board)); [|lia].
Qed.

Lemma transpose_take (board : list str) :
  transpose (map (take (length board)) board) = transpose board.
Proof.
  unfold transpose. rewrite length_map. apply map_ext_in. intros i Hi.
  apply in_seq in Hi. apply column_take. lia.
Qed.

Lemma wide_take (board : list str) :
  wide board -> wide (map (take (length board)) board).
Proof.
  unfold wide. rewrite length_map. intros Hwide.
  apply Forall_map. eapply Forall_impl; [exact Hwide|].
  intros row Hrow. simpl in *. rewrite length_take. lia.
Qed.

(** X14: [check_columns] never reads a cell beyond column [len(board)]: on a
    board whose rows have at least that many cells, the answer is the one
    for the board with every row cut to that length. *)
Theorem check_columns_ignores_extra_cells (board : list str) :
  wide board ->
  check_columns board = check_columns (map (take (length board)) board).
Proof.
  intros Hwide. unfold check_columns.
  rewrite (reversed_board_wide board Hwide).
  rewrite (reversed_board_wide _ (wide_take board Hwide)).
  now rewrite transpose_take.
Qed.

Lemma check_columns_ignores_extra_cells_witness :
  check_columns (map s ["***77"; "*1*"; "***9"]%string)
  = check_columns
      (map (take (length (map s ["***77"; "*1*"; "***9"]%string)))
           (map s ["***77"; "*1*"; "***9"]%string)).
Proof.
  apply (check_columns_ignores_extra_cells
           (map s ["***77"; "*1*"; "***9"]%string)).
  repeat constructor.
Defined.

(** X15: On a square board, the column check of the transposed board is the
    two row checks of the board itself. *)
Theorem check_columns_of_transpose (board : list str) :
  square board ->
  check_columns (transpose board)
  = both (check_uniqueness_in_rows board)
         (check_horizontal_visibility board).
Proof.
  intros Hsq. unfold check_columns, both.
  rewrite (reversed_board_wide _ (square_wide _ (square_transpose board))).
  cbn [bind]. now rewrite (transpose_involutive board Hsq).
Qed.

Lemma check_columns_of_transpose_witness :
  check_columns (transpose check_txt)
  = both (check_uniqueness_in_rows check_txt)
         (check_horizontal_visibility check_txt).
Proof.
  apply (check_columns_of_transpose check_txt). repeat constructor.
Defined.

(** ** [check_skyscrapers]: exceptions, small boards, transposition *)

Lemma unfinished_cell_at (board : list str) :
  unfinished board <-> exists i j, cell_at board i j = Some "?"%char.
Proof.
  unfold unfinished, cell_at. split.
  - intros (row & Hrow & Hc).
    apply list_elem_of_lookup in Hrow as [i Hi].
    apply list_elem_of_lookup in Hc as [j Hj].
    exists i, j. now rewrite Hi.
  - intros (i & j & Hij). destruct (board !! i) as [row|] eqn:Hi;
      [|discriminate].
    exists row. split; apply list_elem_of_lookup; eauto.
Qed.

Lemma check_not_finished_board_false (board : list str) :
  check_not_finished_board board = false <-> unfinished board.
Proof.
  split; [|apply check_not_finished_board_unfinished].
  induction board as [|row board IH]; [discriminate|].
  cbn [check_not_finished_board]. unfold contains.
  destruct (bool_decide_reflect ("?"%char ∈ row)) as [Hin|_].
  - intros _. exists row. split; [apply list_elem_of_here|exact Hin].
  - intros Hrest. destruct (IH Hrest) as (row' & Hrow' & Hc).
    exists row'. split; [now apply list_elem_of_further|exact Hc].
Qed.

Lemma check_not_finished_board_transpose (board : list str) :
  square board ->
  check_not_finished_board (transpose board)
  = check_not_finished_board board.
Proof.
  intros Hsq.
  assert (Hiff : unfinished (transpose board) <-> unfinished board).
  { rewrite !unfinished_cell_at. split; intros (i & j & Hij); exists j, i.
    - now rewrite <- cell_at_transpose.
    - now rewrite cell_at_transpose. }
  rewrite <- !check_not_finished_board_false in Hiff.
  destruct (check_not_finished_board (transpose board)),
           (check_not_finished_board board); try reflexivity.
  - exact (proj2 Hiff eq_refl).
  - symmetry. exact (proj1 Hiff eq_refl).
Qed.

(** X16: [check_not_finished_board] answers [True] exactly when no cell of the
    board, in whatever row or column, holds the unfilled marker. *)
Theorem check_not_finished_board_complete (board : list str) :
  check_not_finished_board board = true <->
  forall i j : nat, cell_at board i j <> Some "?"%char.
Proof.
  split.
  - intros Htrue i j Hcell.
    assert (Hfalse : check_not_finished_board board = false)
      by (apply check_not_finished_board_false, unfinished_cell_at; eauto).
    congruence.
  - intros Hcells. apply not_false_is_true. intros Hfalse.
    apply check_not_finished_board_false, unfinished_cell_at in Hfalse.
    destruct Hfalse as (i & j & Hcell). now apply (Hcells i j).
Qed.

(** X17: A square board and its transposed board get the same verdict:
    [check_skyscrapers] returns a value on the one exactly when it returns
    that value on the other. *)
Theorem check_skyscrapers_transpose
    (read1 read2 : string -> res (list str)) (path1 path2 : string)
    (board : list str) (r : bool) :
  square board ->
  read1 path1 = Ok board -> read2 path2 = Ok (transpose board) ->
  check_skyscrapers read1 path1 = Ok r <->
  check_skyscrapers read2 path2 = Ok r.
Proof.
  intros Hsq Hread1 Hread2. unfold check_skyscrapers, check_columns.
  rewrite Hread1, Hread2. cbn [bind].
  rewrite (reversed_board_wide board (square_wide board Hsq)).
  rewrite (reversed_board_wide _ (square_wide _ (square_transpose board))).
  cbn [bind]. rewrite (transpose_involutive board Hsq).
  rewrite (check_not_finished_board_transpose board Hsq).
  destruct (check_uniqueness_in_rows board) as [u|],
           (check_horizontal_visibility board) as [v|],
           (check_uniqueness_in_rows (transpose board)) as [u'|],
           (check_horizontal_visibility (transpose board)) as [v'|];
    cbn [bind]; try (split; discriminate).
  now destruct u, v, u', v', (check_not_finished_board board).
Qed.

Lemma check_skyscrapers_transpose_witness :
  check_skyscrapers (fun _ => Ok check_txt) "check.txt" = Ok true <->
  check_skyscrapers (fun _ => Ok (transpose check_txt)) "check.txt" = Ok true.
Proof.
  apply (check_skyscrapers_transpose
           (fun _ => Ok check_txt) (fun _ => Ok (transpose check_txt))
           "check.txt" "check.txt" check_txt true).
  - repeat constructor.
  - reflexivity.
  - reflexivity.
Defined.

(** X18: On a board with the unfilled marker in an interior cell of an
    interior row, [check_skyscrapers] returns nothing: it raises, in the
    column check or in the row visibility check. *)
Theorem check_skyscrapers_unfilled_cell
    (read_input : string -> res (list str)) (input_path : string)
    (board : list str) (row : str) :
  read_input input_path = Ok board ->
  row ∈ interior board -> "?"%char ∈ interior row ->
  exists e, check_skyscrapers read_input input_path = Raise e.
Proof.
  intros Hread Hrow Hc.
  unfold check_skyscrapers. rewrite Hread. cbn [bind].
  destruct (check_columns board) as [columns|e]; [|now exists e].
  cbn [bind].
  destruct (check_horizontal_visibility_cases board)
    as [[Hrows _]|[_ [e ->]]]; [exfalso|now exists e].
  rewrite Forall_forall in Hrows. destruct (Hrows row Hrow) as [Hdigits _].
  rewrite Forall_forall in Hdigits. apply unfilled_not_digit, Hdigits.
  unfold row_heights. now apply list_elem_of_filter.
Qed.

Lemma check_skyscrapers_unfilled_cell_witness :
  exists e,
    check_skyscrapers (fun _ => Ok unfinished_txt) "check.txt" = Raise e.
Proof.
  apply (check_skyscrapers_unfilled_cell (fun _ => Ok unfinished_txt)
           "check.txt" unfinished_txt (s "*?????5")).
  - reflexivity.
  - apply list_elem_of_lookup. now exists 2%nat.
  - apply list_elem_of_lookup. now exists 3%nat.
Defined.

(** X19: A row with fewer cells than the board has rows makes
    [check_skyscrapers] raise [IndexError]: the column check runs first. *)
Theorem check_skyscrapers_short_row
    (read_input : string -> res (list str)) (input_path : string)
    (board : list str) (row : str) :
  read_input input_path = Ok board ->
  row ∈ board -> (length row < length board)%nat ->
  check_skyscrapers read_input input_path = Raise IndexError.
Proof.
  intros Hread Hrow Hlen. unfold check_skyscrapers, check_columns,
    reversed_board.
  rewrite Hread. cbn [bind].
  now rewrite (transpose_loops_narrow board
                 (short_row_not_wide board row Hrow Hlen)).
Qed.

Lemma check_skyscrapers_short_row_witness :
  check_skyscrapers (fun _ => Ok (map s ["***21**"; ""; "*2*1***"]%string))
    "check.txt" = Raise IndexError.
Proof.
  apply (check_skyscrapers_short_row _ "check.txt"
           (map s ["***21**"; ""; "*2*1***"]%string) (s "")).
  - reflexivity.
  - apply list_elem_of_lookup. now exists 1%nat.
  - simpl. lia.
Defined.

(** X20: A board of fewer than three rows has nothing to check but
    completeness: when its rows are long enough for the column check,
    [check_skyscrapers] returns [True] unless a cell holds the unfilled
    marker.  The empty board is accepted. *)
Theorem check_skyscrapers_small_board
    (read_input : string -> res (list str)) (input_path : string)
    (board : list str) :
  read_input input_path = Ok board ->
  (length board < 3)%nat -> wide board ->
  check_skyscrapers read_input input_path
  = Ok (check_not_finished_board board).
Proof.
  intros Hread Hlen Hwide. unfold check_skyscrapers, check_columns.
  rewrite Hread. cbn [bind].
  rewrite (reversed_board_wide board Hwide). cbn [bind].
  assert (Hsmall : forall b : list str, (length b < 3)%nat ->
            check_uniqueness_in_rows b = Ok true /\
            check_horizontal_visibility b = Ok true).
  { intros b Hb. split.
    - rewrite check_uniqueness_in_rows_forallb;
        rewrite (interior_short b Hb); [reflexivity|constructor].
    - destruct (check_horizontal_visibility_cases b)
        as [[_ ->]|[Hrows _]]; rewrite (interior_short b Hb) in *;
        [reflexivity|destruct Hrows; constructor]. }
  destruct (Hsmall (transpose board)) as [-> ->];
    [now rewrite length_transpose|].
  destruct (Hsmall board Hlen) as [-> ->]. cbn [bind andb].
  now rewrite andb_true_r.
Qed.

Lemma check_skyscrapers_small_board_witness :
  check_skyscrapers (fun _ => Ok []) "check.txt"
  = Ok (check_not_finished_board []).
Proof.
  apply (check_skyscrapers_small_board (fun _ => Ok []) "check.txt" []).
  - reflexivity.
  - simpl. lia.
  - constructor.
Defined.

(** ** [left_to_right_check]: exceptions and large pivots *)

Lemma lstrip_all (chars l : str) :
  Forall (fun c => c ∈ chars) l -> lstrip chars l = [].
Proof.
  induction 1 as [|c l Hc _ IH]; [reflexivity|].
  cbn [lstrip]. now rewrite (bool_decide_eq_true_2 _ Hc).
Qed.

Lemma strip_all (chars l : str) :
  Forall (fun c => c ∈ chars) l -> strip chars l = [].
Proof.
  intros Hall. unfold strip, rstrip. now rewrite (lstrip_all chars l Hall).
Qed.

(** X21: The unfilled marker anywhere in what is left of the line once the
    blank markers at both ends are stripped makes [left_to_right_check]
    raise [ValueError], whatever the pivot. *)
Theorem left_to_right_check_unfilled (input_line : str) (pivot : Z) :
  "?"%char ∈ strip (s "*") input_line ->
  left_to_right_check input_line pivot = Raise ValueError.
Proof.
  intros Hc. unfold left_to_right_check.
  destruct (map_int_cases (strip (s "*") input_line)) as [[Hall _]|[_ ->]];
    [|reflexivity].
  rewrite Forall_forall in Hall.
  now destruct (unfilled_not_digit (Hall _ Hc)).
Qed.

Lemma left_to_right_check_unfilled_witness :
  left_to_right_check (s "4?2453*") 4 = Raise ValueError.
Proof.
  apply (left_to_right_check_unfilled (s "4?2453*") 4).
  apply list_elem_of_lookup. now exists 1%nat.
Defined.

(** X22: A line of blank markers only, the empty line included, makes
    [left_to_right_check] raise [IndexError]: there is no hint to pop. *)
Theorem left_to_right_check_blank_line (input_line : str) (pivot : Z) :
  Forall (fun c => c = "*"%char) input_line ->
  left_to_right_check input_line pivot = Raise IndexError.
Proof.
  intros Hall. unfold left_to_right_check. rewrite strip_all; [reflexivity|].
  eapply Forall_impl; [exact Hall|]. intros c ->. apply list_elem_of_here.
Qed.

Lemma left_to_right_check_blank_line_witness :
  left_to_right_check (s "*******") 4 = Raise IndexError.
Proof.
  apply (left_to_right_check_blank_line (s "*******") 4).
  repeat constructor.
Defined.

(** X23: With pivot 0 no height is kept, and [left_to_right_check] raises
    [IndexError] on every line of digits. *)
Theorem left_to_right_check_pivot_0 (input_line : str) :
  Forall is_digit (strip (s "*") input_line) ->
  left_to_right_check input_line 0 = Raise IndexError.
Proof.
  intros Hdigits. unfold left_to_right_check.
  rewrite (map_int_digits _ Hdigits).
  destruct (strip (s "*") input_line) as [|c rest]; [reflexivity|].
  cbn [map bind]. rewrite pop_head. cbn [bind].
  now rewrite slice_prefix.
Qed.

Lemma left_to_right_check_pivot_0_witness :
  left_to_right_check (s "412453*") 0 = Raise IndexError.
Proof.
  apply (left_to_right_check_pivot_0 (s "412453*")).
  vm_compute. repeat constructor.
Defined.

(** X24: When the pivot is at least the number of heights that follow the hint,
    every height is kept: on a line of at least two digits
    [left_to_right_check] answers [True] exactly when the last height is the
    maximum of all of them. *)
Theorem left_to_right_check_large_pivot (input_line : str) (pivot : Z) :
  let digits := strip (s "*") input_line in
  let heights := map digit_value (drop 1 digits) in
  Forall is_digit digits ->
  heights <> [] ->
  len heights <= pivot ->
  exists r, left_to_right_check input_line pivot = Ok r /\
    (r = true <->
     exists h, last heights = Some h /\ is_maximum h heights).
Proof.
  intros digits heights Hdigits Hne Hpivot.
  unfold left_to_right_check. fold digits.
  rewrite (map_int_digits digits Hdigits).
  destruct digits as [|c rest] eqn:Hd; [now destruct Hne|].
  cbn [map bind]. rewrite pop_head. cbn [bind].
  subst heights. change (drop 1 (c :: rest)) with (drop 0 rest) in *.
  rewrite drop_0 in *. set (heights := map digit_value rest) in *.
  pose proof (len_nonneg heights) as Hlen.
  rewrite slice_prefix by lia.
  rewrite take_ge by (unfold len in Hpivot; lia).
  destruct (proj2 (last_is_Some heights) Hne) as [h Hlast].
  rewrite getitem_minus_1, Hlast. cbn [bind].
  destruct (max_list_spec heights Hne) as (m & -> & Hm). cbn [bind].
  destruct (Z.eqb_spec h m) as [->|Hdiff].
  - eexists; split; [reflexivity|]. split; [|reflexivity].
    intros _. now exists m.
  - eexists; split; [reflexivity|]. split; [discriminate|].
    intros (h' & Hh' & Hmax). exfalso. apply Hdiff.
    assert (h' = h) as -> by congruence.
    now apply (is_maximum_unique _ _ _ Hmax Hm).
Qed.

Lemma left_to_right_check_large_pivot_witness :
  exists r, left_to_right_check (s "412453*") 9 = Ok r /\
    (r = true <->
     exists h,
       last (map digit_value (drop 1 (strip (s "*") (s "412453*"))))
       = Some h /\
       is_maximum h
         (map digit_value (drop 1 (strip (s "*") (s "412453*"))))).
Proof.
  apply (left_to_right_check_large_pivot (s "412453*") 9).
  - vm_compute. repeat constructor.
  - discriminate.
  - vm_compute. discriminate.
Defined.

(** ** [read_input] *)

Example doctest_read_input :
  read_input
    (fun _ => Ok (s ("***21**" ++ String newline
                       ("412453*" ++ String newline
                          ("423145*" ++ String newline
                             ("*543215" ++ String newline
                                ("*35214*" ++ String newline
                                   ("*41532*" ++ String newline
                                      "*2*1***")))))))) "check.txt"
  = Ok check_txt.
Proof. reflexivity. Qed.

Lemma for_each_append {A B : Type} (f : A -> B) (l : list A) (acc : list B) :
  for_each l acc (fun x acc => Ok (acc ++ [f x])) = Ok (acc ++ map f l).
Proof.
  revert acc. induction l as [|x l IH]; intros acc.
  - cbn. now rewrite app_nil_r.
  - cbn [for_each bind map]. rewrite IH. now rewrite <- app_assoc.
Qed.

(** [read_input] strips every line of the file. *)
Lemma read_input_lines (open_text : string -> res str) (path : string)
    (text : str) :
  open_text path = Ok text ->
  read_input open_text path = Ok (map (strip whitespace) (file_lines text)).
Proof.
  intros Hopen. unfold read_input. rewrite Hopen. cbn [bind].
  now rewrite (for_each_append (strip whitespace)).
Qed.

Lemma lstrip_split (chars l : str) :
  exists removed,
    l = removed ++ lstrip chars l /\ Forall (fun c => c ∈ chars) removed.
Proof.
  induction l as [|c l (removed & Hl & Hremoved)]; [now exists []|].
  cbn [lstrip]. destruct (bool_decide_reflect (c ∈ chars)) as [Hc|Hc].
  - exists (c :: removed). split; [cbn; now f_equal|now constructor].
  - now exists [].
Qed.

Lemma head_lstrip (chars l : str) (c : ascii) :
  head (lstrip chars l) = Some c -> c ∉ chars.
Proof.
  induction l as [|x l IH]; [discriminate|].
  cbn [lstrip]. destruct (bool_decide_reflect (x ∈ chars)) as [Hx|Hx];
    [exact IH|].
  now intros [= <-].
Qed.

Lemma lstrip_id (chars l : str) :
  (forall c, head l = Some c -> c ∉ chars) -> lstrip chars l = l.
Proof.
  destruct l as [|x l]; [reflexivity|]. intros Hhead.
  cbn [lstrip]. now rewrite (bool_decide_eq_false_2 _ (Hhead x eq_refl)).
Qed.

Lemma rstrip_id (chars l : str) :
  (forall c, last l = Some c -> c ∉ chars) -> rstrip chars l = l.
Proof.
  intros Hlast. unfold rstrip. rewrite lstrip_id, reverse_involutive;
    [reflexivity|].
  intros c. rewrite head_reverse. apply Hlast.
Qed.

Lemma rstrip_split (chars l : str) :
  exists removed,
    l = rstrip chars l ++ removed /\ Forall (fun c => c ∈ chars) removed.
Proof.
  destruct (lstrip_split chars (reverse l)) as (removed & Hl & Hremoved).
  exists (reverse removed). split; [|now apply Forall_reverse].
  unfold rstrip. rewrite <- reverse_app, <- Hl.
  now rewrite reverse_involutive.
Qed.

Lemma last_rstrip (chars l : str) (c : ascii) :
  last (rstrip chars l) = Some c -> c ∉ chars.
Proof. unfold rstrip. rewrite last_reverse. apply head_lstrip. Qed.

Lemma head_rstrip (chars l : str) (c : ascii) :
  head (rstrip chars l) = Some c -> head l = Some c.
Proof.
  destruct (rstrip_split chars l) as (removed & Hl & _).
  intros Hhead. rewrite Hl. now destruct (rstrip chars l).
Qed.

(** What [strip] returns neither starts nor ends with a stripped
    character. *)
Lemma strip_ends (chars l : str) (c : ascii) :
  head (strip chars l) = Some c \/ last (strip chars l) = Some c ->
  c ∉ chars.
Proof.
  unfold strip. intros [Hhead|Hlast].
  - apply head_rstrip in Hhead. now apply head_lstrip in Hhead.
  - now apply last_rstrip in Hlast.
Qed.

Lemma strip_id (chars l : str) :
  (forall c, head l = Some c -> c ∉ chars) ->
  (forall c, last l = Some c -> c ∉ chars) ->
  strip chars l = l.
Proof.
  intros Hhead Hlast. unfold strip.
  now rewrite (lstrip_id chars l Hhead), (rstrip_id chars l Hlast).
Qed.

Lemma newline_whitespace : newline ∈ whitespace.
Proof. apply list_elem_of_lookup. now exists 1%nat. Qed.

(** Stripping a clean row followed by its line feed gives the row back. *)
Lemma strip_line (row : str) :
  clean_row row -> strip whitespace (row ++ [newline]) = row.
Proof.
  intros (_ & _ & Hhead & Hlast). unfold strip.
  destruct row as [|c row].
  - cbn [app lstrip].
    now rewrite (bool_decide_eq_true_2 _ newline_whitespace).
  - rewrite lstrip_id by (intros x [= <-]; now apply Hhead).
    unfold rstrip. rewrite reverse_snoc. cbn [lstrip].
    rewrite (bool_decide_eq_true_2 _ newline_whitespace).
    now apply (rstrip_id whitespace (c :: row)).
Qed.

Lemma lines_from_line (row cur text : str) :
  newline ∉ row ->
  lines_from cur (row ++ newline :: text)
  = (cur ++ row ++ [newline]) :: lines_from [] text.
Proof.
  revert cur. induction row as [|c row IH]; intros cur Hrow.
  - cbn [app lines_from]. now rewrite bool_decide_eq_true_2.
  - apply not_elem_of_cons in Hrow as [Hc Hrow].
    cbn [app lines_from].
    rewrite bool_decide_eq_false_2 by (intros ->; now apply Hc).
    rewrite (IH (cur ++ [c]) Hrow). now rewrite <- app_assoc.
Qed.

Lemma lines_from_tail (tail cur : str) :
  newline ∉ tail -> lines_from cur tail = last_line (cur ++ tail).
Proof.
  revert cur. induction tail as [|c tail IH]; intros cur Htail.
  - cbn [lines_from]. now rewrite app_nil_r.
  - apply not_elem_of_cons in Htail as [Hc Htail].
    cbn [lines_from].
    rewrite bool_decide_eq_false_2 by (intros ->; now apply Hc).
    rewrite (IH (cur ++ [c]) Htail). now rewrite <- app_assoc.
Qed.

(** The lines of a text written row by row. *)
Lemma file_lines_unlines (rows : list str) (tail : str) :
  Forall (fun row => newline ∉ row) rows -> newline ∉ tail ->
  file_lines (unlines rows ++ tail)
  = map (fun row => row ++ [newline]) rows ++ last_line tail.
Proof.
  intros Hrows Htail. unfold file_lines, unlines.
  induction Hrows as [|row rows Hrow _ IH].
  - cbn [map concat app]. now rewrite (lines_from_tail tail [] Htail).
  - cbn [map concat]. rewrite <- !app_assoc. cbn [app].
    rewrite (lines_from_line row [] _ Hrow). cbn [app]. now rewrite IH.
Qed.

(** X25: The rows [read_input] returns neither start nor end with a whitespace
    character. *)
Theorem read_input_stripped (open_text : string -> res str) (path : string)
    (rows : list str) (row : str) (c : ascii) :
  read_input open_text path = Ok rows -> row ∈ rows ->
  head row = Some c \/ last row = Some c ->
  c ∉ whitespace.
Proof.
  intros Hread Hrow Hends.
  destruct (open_text path) as [text|e] eqn:Hopen;
    [|unfold read_input in Hread; now rewrite Hopen in Hread].
  rewrite (read_input_lines open_text path text Hopen) in Hread.
  injection Hread as <-. apply list_elem_of_In, in_map_iff in Hrow.
  destruct Hrow as (line & <- & _). now apply strip_ends in Hends.
Qed.

Lemma read_input_stripped_witness : "1"%char ∉ whitespace.
Proof.
  apply (read_input_stripped (fun _ => Ok (s " 12 " ++ [newline]))
           "check.txt" [s "12"] (s "12") "1"%char).
  - reflexivity.
  - apply list_elem_of_here.
  - left. reflexivity.
Defined.

(** X26: Reading back a file written row by row gives the rows.  When every
    row is clean (neither line feed nor carriage return inside, no
    whitespace at either end), the text of the rows, each followed by a
    line feed, and of one more clean row without line feed, holds no line
    end for the text layer to translate, and it is read as these rows; a
    last row that is empty does not appear. *)
Theorem read_input_unlines (open_text : string -> res str) (path : string)
    (rows : list str) (tail : str) :
  Forall clean_row rows -> clean_row tail ->
  open_text path = Ok (unlines rows ++ tail) ->
  read_input open_text path = Ok (rows ++ last_line tail).
Proof.
  intros Hrows Htail Hopen.
  rewrite (read_input_lines open_text path _ Hopen).
  rewrite file_lines_unlines;
    [|eapply Forall_impl; [exact Hrows|]; now intros row [Hrow _]
     |now destruct Htail].
  rewrite map_app, map_map. f_equal. f_equal.
  - rewrite <- (map_id rows) at 2. apply map_ext_in. intros row Hrow.
    apply strip_line. rewrite Forall_forall in Hrows.
    now apply Hrows, list_elem_of_In.
  - destruct tail as [|c tail]; [reflexivity|]. cbn [last_line map].
    f_equal. destruct Htail as (_ & _ & Hhead & Hlast). now apply strip_id.
Qed.

Ltac decide_goal := apply (bool_decide_unpack _); vm_compute; exact I.

Lemma read_input_unlines_witness :
  read_input (fun _ => Ok (unlines (map s ["***"; "*1*"]%string) ++ s "***"))
    "check.txt"
  = Ok (map s ["***"; "*1*"]%string ++ last_line (s "***")).
Proof.
  apply (read_input_unlines _ "check.txt" (map s ["***"; "*1*"]%string)
           (s "***")).
  - repeat constructor; try decide_goal; intros c [= <-]; decide_goal.
  - repeat split; try decide_goal; intros c [= <-]; decide_goal.
  - reflexivity.
Defined.

(** X27: A line of whitespace only anywhere in the file, a trailing empty line
    for one, is read as an empty row, and [check_skyscrapers] raises
    [IndexError]. *)
Theorem check_skyscrapers_blank_line (open_text : string -> res str)
    (path : string) (text line : str) :
  open_text path = Ok text ->
  line ∈ file_lines text -> Forall (fun c => c ∈ whitespace) line ->
  check_skyscrapers (read_input open_text) path = Raise IndexError.
Proof.
  intros Hopen Hline Hblank. unfold check_skyscrapers.
  rewrite (read_input_lines open_text path text Hopen). cbn [bind].
  unfold check_columns, reversed_board.
  rewrite transpose_loops_narrow; [reflexivity|].
  apply short_row_not_wide with (strip whitespace line).
  - apply list_elem_of_In, in_map, list_elem_of_In, Hline.
  - rewrite (strip_all whitespace line Hblank), length_map.
    apply list_elem_of_lookup in Hline as [i Hi].
    apply lookup_lt_Some in Hi. simpl. lia.
Qed.

Lemma check_skyscrapers_blank_line_witness :
  check_skyscrapers
    (read_input (fun _ => Ok (unlines (map s ["***"; "*1*"; "***"; ""]%string))))
    "check.txt"
  = Raise IndexError.
Proof.
  apply (check_skyscrapers_blank_line _ "check.txt"
           (unlines (map s ["***"; "*1*"; "***"; ""]%string)) [newline]).
  - reflexivity.
  - apply list_elem_of_lookup. now exists 3%nat.
  - repeat constructor.
Defined.
